(** * FeedBack-Prize-3 helper functions: a shallow embedding

    The development follows [feedback_custom_funtions.py]: the dataset
    adapter, the loss functions, the optimizer set-up with its layerwise
    parameter groups, and the evaluation metric.

    Numbers are real numbers: the arithmetic of the arrays and tensors is
    taken exactly, rounding is not part of the model.  The one value that is
    not a real number and that the functions can still produce from real
    inputs, the [nan] of a mean over nothing, is kept apart ([num]). *)

From Stdlib Require Import Reals Lra Lia ZArith String Ascii Bool List Permutation.
Import ListNotations.

Local Set Warnings "-register-all".

Local Open Scope string_scope.
Local Open Scope list_scope.
Local Open Scope R_scope.

(** ** Python outcomes *)

Module Py.

(** The exceptions the module can end in.  None of them comes from a
    [raise] statement of the module: it has none.  [KeyErrorLabels] is the
    [KeyError] of a selection by a list of labels: its key is a message
    that lists labels, not one label. *)
Inductive exn : Type :=
| IndexError
| KeyError (key : string)
| KeyErrorLabels (labels : list string)
| AttributeError (attr : string)
| ZeroDivisionError
| UnboundLocalError (var : string)
| ValueError (msg : string).

Inductive outcome (A : Type) : Type :=
| Return (a : A)
| Raise (e : exn).

Arguments Return {A} a.
Arguments Raise {A} e.

Definition bind {A B : Type} (m : outcome A) (k : A -> outcome B) : outcome B :=
  match m with
  | Return a => k a
  | Raise e => Raise e
  end.

(** An error is descriptive when it was raised on purpose, with a message
    for the caller.  What the interpreter raises by itself when a name, an
    attribute, an index or a key cannot be found, or on a division by
    zero, is not. *)
Definition descriptive (e : exn) : bool :=
  match e with
  | ValueError _ => true
  | _ => false
  end.

(** [seq[i]] for a Python integer [i] and a sequence of length [n]:
    negative indices count from the end. *)
Definition index (n : nat) (i : Z) : outcome nat :=
  if ((0 <=? i) && (i <? Z.of_nat n))%Z then Return (Z.to_nat i)
  else if ((- Z.of_nat n <=? i) && (i <? 0))%Z then Return (Z.to_nat (Z.of_nat n + i))
  else Raise IndexError.

(** [sub in s] on strings. *)
Fixpoint contains (sub s : string) : bool :=
  String.prefix sub s ||
  match s with
  | EmptyString => false
  | String _ s' => contains sub s'
  end.

(** [any(nd in n for nd in pats)] *)
Definition any_in (pats : list string) (n : string) : bool :=
  existsb (fun nd => contains nd n) pats.

End Py.

Notation "x <- m ;; k" := (Py.bind m (fun x => k))
  (at level 61, m at next level, right associativity).

Import Py.

(** ** Numbers that may be [nan] *)

Inductive num : Type :=
| Fin (x : R)
| NaN.

(** The square root of a negative number is [nan]. *)
Definition real_sqrt (x : R) : num :=
  if Rlt_dec x 0 then NaN else Fin (sqrt x).

Definition num_sqrt (v : num) : num :=
  match v with
  | Fin x => real_sqrt x
  | NaN => NaN
  end.

Definition num_add (a b : num) : num :=
  match a, b with
  | Fin x, Fin y => Fin (x + y)
  | _, _ => NaN
  end.

(** Comparisons with [nan] are false. *)
Definition num_ge0 (v : num) : Prop :=
  match v with
  | Fin x => 0 <= x
  | NaN => False
  end.

Definition Rsum (l : list R) : R := fold_right Rplus 0 l.

(** The sum and the mean of numbers that may be [nan]: one [nan] makes the
    result [nan], and so does a mean over nothing. *)
Definition sum_num (v : list num) : num := fold_right num_add (Fin 0) v.

Definition mean_num (v : list num) : num :=
  match v with
  | [] => NaN
  | _ =>
      match sum_num v with
      | Fin s => Fin (s / INR (length v))
      | NaN => NaN
      end
  end.

(** ** The part of numpy that [compute_metrics] uses *)

Module np.

(** A two-dimensional array of shape [(nrows, ncols)], row by row. *)
Record ndarray : Type := mk_ndarray {
  nrows : nat;
  ncols : nat;
  rows : list (list R)
}.

Definition well_shaped (a : ndarray) : Prop :=
  length (rows a) = nrows a /\
  Forall (fun r => length r = ncols a) (rows a).

Definition same_shape (a b : ndarray) : Prop :=
  nrows a = nrows b /\ ncols a = ncols b.

(** Entry [(i, j)] of [a] seen through broadcasting: an axis of length
    one is repeated. *)
Definition item (a : ndarray) (i j : nat) : R :=
  nth (if Nat.eqb (ncols a) 1 then 0%nat else j)
      (nth (if Nat.eqb (nrows a) 1 then 0%nat else i) (rows a) [])
      0.

Definition broadcast_dim (m n : nat) : option nat :=
  if Nat.eqb m n then Some m
  else if Nat.eqb m 1 then Some n
  else if Nat.eqb n 1 then Some m
  else None.

(** [f(a, b)] entry by entry, with numpy's broadcasting rule. *)
Definition elementwise (f : R -> R -> R) (a b : ndarray) : outcome ndarray :=
  match broadcast_dim (nrows a) (nrows b), broadcast_dim (ncols a) (ncols b) with
  | Some n, Some m =>
      Return (mk_ndarray n m
                (map (fun i => map (fun j => f (item a i j) (item b i j)) (seq 0 m))
                     (seq 0 n)))
  | _, _ => Raise (ValueError "operands could not be broadcast together")
  end.

Definition subtract : ndarray -> ndarray -> outcome ndarray := elementwise Rminus.

(** [a ** 2] *)
Definition square (a : ndarray) : ndarray :=
  mk_ndarray (nrows a) (ncols a) (map (map (fun x => x ^ 2)) (rows a)).

(** [np.mean] of a one-dimensional array: [nan] when it is empty. *)
Definition mean (l : list R) : num :=
  match l with
  | [] => NaN
  | _ => Fin (Rsum l / INR (length l))
  end.

Definition column (a : ndarray) (j : nat) : list R :=
  map (fun r => nth j r 0) (rows a).

(** [np.mean(a, axis=0)]: one mean per column. *)
Definition mean_axis0 (a : ndarray) : list num :=
  map (fun j => mean (column a j)) (seq 0 (ncols a)).

(** [np.sqrt] on a one-dimensional array. *)
Definition sqrt (v : list num) : list num := map num_sqrt v.

(** [v[k]] for a literal index [k >= 0]. *)
Definition getitem (v : list num) (k : nat) : outcome num :=
  match nth_error v k with
  | Some x => Return x
  | None => Raise IndexError
  end.

End np.

(** ** Evaluation *)

(** What the evaluation harness hands over: [p.predictions], [p.label_ids]. *)
Record EvalPrediction : Type := mk_EvalPrediction {
  predictions : np.ndarray;
  label_ids : np.ndarray
}.

(** A Python [dict] with string keys, in insertion order. *)
Definition dict (V : Type) : Type := list (string * V).

Definition keys {V : Type} (d : dict V) : list string := map fst d.

Fixpoint dict_get {V : Type} (d : dict V) (k : string) : option V :=
  match d with
  | [] => None
  | (k', v) :: d' => if String.eqb k k' then Some v else dict_get d' k
  end.

Definition colwise_rmse_of (p : EvalPrediction) : outcome (list num) :=
  d <- np.subtract (label_ids p) (predictions p) ;;
  Return (np.sqrt (np.mean_axis0 (np.square d))).

Definition compute_metrics (p : EvalPrediction) : outcome (dict num) :=
  colwise_rmse <- colwise_rmse_of p ;;
  let mean_rmse := mean_num colwise_rmse in
  c0 <- np.getitem colwise_rmse 0 ;;
  c1 <- np.getitem colwise_rmse 1 ;;
  c2 <- np.getitem colwise_rmse 2 ;;
  c3 <- np.getitem colwise_rmse 3 ;;
  c4 <- np.getitem colwise_rmse 4 ;;
  c5 <- np.getitem colwise_rmse 5 ;;
  Return [("mcrmse", mean_rmse);
          ("cohesion_rmse", c0);
          ("syntax_rmse", c1);
          ("vocabulary_rmse", c2);
          ("phraseology_rmse", c3);
          ("grammar_rmse", c4);
          ("conventions_rmse", c5)].

Definition has_shape (a : np.ndarray) (n m : nat) : Prop :=
  np.well_shaped a /\ np.nrows a = n /\ np.ncols a = m.

(** The metric in the words of its contract: entry [(i, j)] of an array,
    the root of the mean squared error of column [j], and the names of the
    result in the order the dictionary is built. *)
Definition entry (a : np.ndarray) (i j : nat) : R :=
  nth j (nth i (np.rows a) []) 0.

Definition rmse_spec (l p : np.ndarray) (j : nat) : R :=
  sqrt (Rsum (map (fun i => (entry l i j - entry p i j) ^ 2) (seq 0 (np.nrows l)))
        / INR (np.nrows l)).

Definition metric_names : list string :=
  ["mcrmse"; "cohesion_rmse"; "syntax_rmse"; "vocabulary_rmse";
   "phraseology_rmse"; "grammar_rmse"; "conventions_rmse"].

(** The dictionary with the six column values [r 0 .. r 5] and their mean. *)
Definition metrics_of (r : nat -> R) : dict num :=
  [("mcrmse", Fin ((r 0%nat + r 1%nat + r 2%nat + r 3%nat + r 4%nat + r 5%nat) / 6));
   ("cohesion_rmse", Fin (r 0%nat));
   ("syntax_rmse", Fin (r 1%nat));
   ("vocabulary_rmse", Fin (r 2%nat));
   ("phraseology_rmse", Fin (r 3%nat));
   ("grammar_rmse", Fin (r 4%nat));
   ("conventions_rmse", Fin (r 5%nat))].

(** ** The part of torch that the loss functions use *)

Module torch.

(** The entries of a tensor in row-major order.  Two tensors of one shape
    have as many entries, and an entrywise operation pairs them position
    by position.  Tensors of different shapes, which torch broadcasts or
    refuses with an error, are not modelled: what is stated about an
    entrywise operation is stated for two tensors of one length. *)
Definition Tensor : Type := list R.

Definition zip_with (f : R -> R -> R) (a b : Tensor) : Tensor :=
  map (fun xy => f (fst xy) (snd xy)) (combine a b).

(** [nn.MSELoss(reduction='none')] *)
Definition mse_none (input target : Tensor) : Tensor :=
  zip_with (fun x y => (x - y) ^ 2) input target.

(** [t + c] for a Python float [c] *)
Definition add_scalar (t : Tensor) (c : R) : Tensor := map (fun x => x + c) t.

(** [torch.sqrt]: [nan] where an entry is negative. *)
Definition sqrt (t : Tensor) : list num := map real_sqrt t.

(** [t.sum()]: zero on the empty tensor. *)
Definition sum (t : list num) : num := sum_num t.

(** [t.mean()]: [nan] on the empty tensor. *)
Definition mean (t : list num) : num := mean_num t.

(** [t.float()] changes the precision only. *)
Definition float (t : Tensor) : Tensor := t.

(** [nn.MSELoss()], with its default mean reduction. *)
Definition MSELoss (input target : Tensor) : num :=
  mean (map Fin (mse_none input target)).

(** [nn.SmoothL1Loss()], with its defaults [beta = 1.0] and mean reduction. *)
Definition smooth_l1 (x y : R) : R :=
  if Rlt_dec (Rabs (x - y)) 1 then 0.5 * (x - y) ^ 2 / 1 else Rabs (x - y) - 0.5 * 1.

Definition SmoothL1Loss (input target : Tensor) : num :=
  mean (map Fin (zip_with smooth_l1 input target)).

End torch.

(** ** Loss functions *)

(** A loss is a tensor when it is not reduced, and a number otherwise. *)
Inductive loss_value : Type :=
| Elementwise (t : list num)
| Scalar (v : num).

Record RMSELoss : Type := mk_RMSELoss {
  reduction : string;
  eps : R
}.

(** [RMSELoss()]: [reduction='mean'], [eps=1e-9]. *)
Definition RMSELoss_default : RMSELoss := mk_RMSELoss "mean" 1e-9.

Definition forward (self : RMSELoss) (predictions targets : torch.Tensor) : loss_value :=
  let loss := torch.sqrt (torch.add_scalar (torch.mse_none predictions targets) (eps self)) in
  if String.eqb (reduction self) "none" then Elementwise loss
  else if String.eqb (reduction self) "sum" then Scalar (torch.sum loss)
  else if String.eqb (reduction self) "mean" then Scalar (torch.mean loss)
  else Elementwise loss.

(** [loss_func] is bound in three branches only: [None] is the local
    variable left unbound. *)
Definition select_loss (loss_type : string)
  : option (torch.Tensor -> torch.Tensor -> loss_value) :=
  if String.eqb loss_type "mse" then Some (fun o l => Scalar (torch.MSELoss o l))
  else if String.eqb loss_type "rmse" then Some (forward RMSELoss_default)
  else if String.eqb loss_type "smooth_l1" then Some (fun o l => Scalar (torch.SmoothL1Loss o l))
  else None.

Definition loss_fn (outputs labels : torch.Tensor) (loss_type : string) : outcome loss_value :=
  match select_loss loss_type with
  | Some loss_func => Return (loss_func (torch.float outputs) (torch.float labels))
  | None => Raise (UnboundLocalError "loss_func")
  end.

(** The loss in the words of its contract: the square root of the squared
    error plus epsilon, entry by entry, then one of three reductions. *)
Definition rmse_elementwise (e : R) (p t : torch.Tensor) : list num :=
  map (fun xy => real_sqrt ((fst xy - snd xy) ^ 2 + e)) (combine p t).

Inductive strategy : Type := Mean | Sum | NoReduction.

Definition strategy_name (s : strategy) : string :=
  match s with
  | Mean => "mean"
  | Sum => "sum"
  | NoReduction => "none"
  end.

Definition reduce (s : strategy) (l : list num) : loss_value :=
  match s with
  | Mean => Scalar (mean_num l)
  | Sum => Scalar (sum_num l)
  | NoReduction => Elementwise l
  end.

(** A loss is non-negative when it is, or when each of its entries is. *)
Definition loss_ge0 (v : loss_value) : Prop :=
  match v with
  | Elementwise t => Forall num_ge0 t
  | Scalar x => num_ge0 x
  end.

(** A loss is at least [c] when it is, or when each of its entries is. *)
Definition num_ge (c : R) (v : num) : Prop :=
  match v with
  | Fin x => c <= x
  | NaN => False
  end.

Definition loss_ge (c : R) (v : loss_value) : Prop :=
  match v with
  | Elementwise t => Forall (num_ge c) t
  | Scalar x => num_ge c x
  end.

Definition recognized (loss_type : string) : Prop :=
  loss_type = "mse" \/ loss_type = "rmse" \/ loss_type = "smooth_l1".

(** ** Models and their parameters *)

(** A parameter is known by its identity: two names can lead to one
    parameter object. *)
Definition Param : Type := nat.

(** An [nn.Module]: its own parameters and its child modules, each under
    the name it was registered with, in registration order. *)
Inductive nnModule : Type :=
| Mod (own : list (string * Param)) (children : list (string * nnModule)).

Definition own_params (m : nnModule) : list (string * Param) :=
  match m with Mod ps _ => ps end.

Definition children_of (m : nnModule) : list (string * nnModule) :=
  match m with Mod _ cs => cs end.

(** [prefix + ('.' if prefix else '') + name] *)
Definition join (prefix name : string) : string :=
  if String.eqb prefix "" then name else (prefix ++ "." ++ name)%string.

(** Every (name, parameter) of the module tree, a module's own parameters
    before those of its children. *)
Fixpoint walk_parameters (prefix : string) (m : nnModule) : list (string * Param) :=
  match m with
  | Mod ps cs =>
      map (fun np => (join prefix (fst np), snd np)) ps ++
      flat_map (fun kc => walk_parameters (join prefix (fst kc)) (snd kc)) cs
  end.

(** The memo of [named_parameters]: a parameter object already seen is
    not yielded again. *)
Fixpoint remove_duplicate (memo : list Param) (l : list (string * Param))
  : list (string * Param) :=
  match l with
  | [] => []
  | (n, p) :: l' =>
      if existsb (Nat.eqb p) memo then remove_duplicate memo l'
      else (n, p) :: remove_duplicate (p :: memo) l'
  end.

Definition named_parameters (m : nnModule) : list (string * Param) :=
  remove_duplicate [] (walk_parameters "" m).

(** [m.name] for a child module. *)
Fixpoint lookup_child (cs : list (string * nnModule)) (name : string) : option nnModule :=
  match cs with
  | [] => None
  | (k, c) :: cs' => if String.eqb name k then Some c else lookup_child cs' name
  end.

Definition getattr (m : nnModule) (name : string) : outcome nnModule :=
  match lookup_child (children_of m) name with
  | Some c => Return c
  | None => Raise (AttributeError name)
  end.

(** [list(m)] for an [nn.ModuleList]: its modules in order.  A module that
    cannot be iterated, on which [list] fails, is not modelled. *)
Definition module_list (m : nnModule) : list nnModule := map snd (children_of m).

(** ** Optimizer *)

(** A group handed to the optimizer: the key ["lr"] is absent from the
    groups of the plain (not layerwise) set-up. *)
Record param_group : Type := mk_group {
  params : list Param;
  weight_decay : R;
  lr : option R
}.

Definition no_decay : list string := ["bias"; "LayerNorm.weight"].

(** [[p for n, p in named if cond(n)]] *)
Definition select (cond : string -> bool) (named : list (string * Param)) : list Param :=
  map snd (filter (fun np => cond (fst np)) named).

Definition is_head (n : string) : bool := negb (contains "model" n).

Definition is_extra (n : string) : bool :=
  contains "model" n && negb (contains "model.embeddings" n)
  && negb (contains "model.encoder.layer" n).

Definition decays (n : string) : bool := negb (any_in no_decay n).

Definition layer_groups (layerwise_weight_decay rate : R) (layer : nnModule)
  : list param_group :=
  [ mk_group (select decays (named_parameters layer)) layerwise_weight_decay (Some rate);
    mk_group (select (any_in no_decay) (named_parameters layer)) 0.0 (Some rate) ].

(** The loop over the layers: the groups so far and the current rate are
    the state. *)
Fixpoint for_layers (layerwise_weight_decay layerwise_lr_decay : R)
    (layers : list nnModule) (groups : list param_group) (rate : R)
  : list param_group :=
  match layers with
  | [] => groups
  | layer :: rest =>
      for_layers layerwise_weight_decay layerwise_lr_decay rest
        (groups ++ layer_groups layerwise_weight_decay rate layer)
        (rate * layerwise_lr_decay)
  end.

(** [[model.model.embeddings] + list(model.model.encoder.layer)], reversed. *)
Definition layers_of (model : nnModule) : outcome (list nnModule) :=
  backbone <- getattr model "model" ;;
  embeddings <- getattr backbone "embeddings" ;;
  encoder <- getattr backbone "encoder" ;;
  layer <- getattr encoder "layer" ;;
  Return (rev ([embeddings] ++ module_list layer)).

Definition get_optimizer_grouped_parameters (model : nnModule)
    (layerwise_lr decoder_lr layerwise_weight_decay layerwise_lr_decay : R)
  : outcome (list param_group) :=
  let optimizer_grouped_parameters :=
    [ mk_group (select is_head (named_parameters model)) 0.0 (Some decoder_lr) ] in
  let extra_params := filter (fun np => is_extra (fst np)) (named_parameters model) in
  let optimizer_grouped_parameters :=
    optimizer_grouped_parameters ++
    [ mk_group (select decays extra_params) layerwise_weight_decay (Some layerwise_lr) ] in
  let optimizer_grouped_parameters :=
    optimizer_grouped_parameters ++
    [ mk_group (select (any_in no_decay) extra_params) 0.0 (Some layerwise_lr) ] in
  layers <- layers_of model ;;
  Return (for_layers layerwise_weight_decay layerwise_lr_decay layers
            optimizer_grouped_parameters layerwise_lr).

(** Every parameter of the groups, group after group. *)
Definition all_params (groups : list param_group) : list Param :=
  flat_map params groups.

(** The parameters that the loop over the layers does not reach, under
    their names in the model: those of the model outside the backbone,
    of the backbone outside the embedding block and the encoder, of the
    encoder outside its list of layers, and what the list of layers owns
    itself. *)
Fixpoint remove_child (cs : list (string * nnModule)) (name : string)
  : list (string * nnModule) :=
  match cs with
  | [] => []
  | (k, c) :: cs' => if String.eqb name k then cs' else (k, c) :: remove_child cs' name
  end.

Definition prefixed (prefix : string) (m : nnModule) : list (string * Param) :=
  map (fun np => (join prefix (fst np), snd np)) (own_params m).

Definition walk_children (prefix : string) (cs : list (string * nnModule))
  : list (string * Param) :=
  flat_map (fun kc => walk_parameters (join prefix (fst kc)) (snd kc)) cs.

Definition outside_layers (model backbone encoder layer : nnModule)
  : list (string * Param) :=
  prefixed "" model ++
  (prefixed "model" backbone ++
   (prefixed "model.encoder" encoder ++
    prefixed "model.encoder.layer" layer ++
    walk_children "model.encoder" (remove_child (children_of encoder) "layer")) ++
   walk_children "model"
     (remove_child (remove_child (children_of backbone) "embeddings") "encoder")) ++
  walk_children "" (remove_child (children_of model) "model").

(** What the loop over the layers reaches, under the names of the model. *)
Definition covered_by_layers (embeddings layer : nnModule) : list (string * Param) :=
  walk_parameters "model.embeddings" embeddings ++
  walk_children "model.encoder.layer" (children_of layer).

(** A name that matches neither of the two patterns by which the layers
    are told apart. *)
Definition pattern_free (n : string) : bool :=
  negb (contains "model.embeddings" n) && negb (contains "model.encoder.layer" n).

(** The rate of the layer visited after [k] others, in the words of the
    contract: the base rate times the decay factor, once per layer step. *)
Definition rate_at (layerwise_lr layerwise_lr_decay : R) (k : nat) : R :=
  layerwise_lr * layerwise_lr_decay ^ k.

(** The layers with the number of layers visited before each. *)
Definition enumerate {A : Type} (l : list A) : list (nat * A) :=
  combine (seq 0 (length l)) l.

(** The learning rates of a list of groups, in the order of the groups. *)
Definition rates_of (groups : list param_group) : list R :=
  flat_map (fun g => match lr g with Some r => [r] | None => [] end) groups.

Fixpoint non_increasing (l : list R) : Prop :=
  match l with
  | x :: l' =>
      match l' with
      | y :: _ => y <= x /\ non_increasing l'
      | [] => True
      end
  | [] => True
  end.

(** The groups of the layers follow the three groups of the head and of
    the other backbone parameters. *)
Definition layer_part (groups : list param_group) : list param_group := skipn 3 groups.

(** The default of the last argument. *)
Definition default_lr_decay : R := 0.9.

(** The options read from [config]. *)
Record Config : Type := mk_Config {
  learning_rate : R;
  cfg_decoder_lr : R;
  cfg_weight_decay : R;
  epochs : Z;
  train_batch_size : Z;
  n_accumulate : Z
}.

(** [a // b] on Python integers. *)
Definition floordiv (a b : Z) : outcome Z :=
  if (b =? 0)%Z then Raise ZeroDivisionError else Return (a / b)%Z.

(** The optimizer and the scheduler are collaborators: they are known by
    the arguments they were built from.  What their constructors refuse (a
    negative learning rate, a parameter in two groups) is not modelled. *)
Record Optimizer : Type := mk_Optimizer {
  opt_groups : list param_group;
  opt_lr : R;
  correct_bias : bool
}.

Record Scheduler : Type := mk_Scheduler {
  sched_optimizer : Optimizer;
  num_warmup_steps : R;
  num_training_steps : Z
}.

Definition plain_groups (model : nnModule) (config : Config) : list param_group :=
  let param_optimizer := named_parameters model in
  [ mk_group (select decays param_optimizer) (cfg_weight_decay config) None;
    mk_group (select (any_in no_decay) param_optimizer) 0.0 None ].

(** The first statement of [optimizer_setup]: the groups, layerwise or
    plain. *)
Definition optimizer_parameters_of (model : nnModule) (config : Config)
    (layerwise : bool) : outcome (list param_group) :=
  if layerwise
  then get_optimizer_grouped_parameters model (learning_rate config)
         (cfg_decoder_lr config) (cfg_weight_decay config) default_lr_decay
  else Return (plain_groups model config).

Definition optimizer_setup (model : nnModule) (config : Config)
    (train_dataset_size : Z) (layerwise : bool) : outcome (Optimizer * Scheduler) :=
  optimizer_parameters <- optimizer_parameters_of model config layerwise ;;
  let optimizer := mk_Optimizer optimizer_parameters (learning_rate config) true in
  steps <- floordiv (train_dataset_size * epochs config)
                    (train_batch_size config * n_accumulate config) ;;
  let scheduler := mk_Scheduler optimizer (0.1 * IZR steps) steps in
  Return (optimizer, scheduler).

(** The number of steps in the words of the contract:
    floor(epochs x dataset_size / (batch_size x accumulation_steps)). *)
Definition total_steps_spec (dataset_size epochs batch_size accumulation_steps : Z) : Z :=
  Zfloor (IZR epochs * IZR dataset_size / (IZR batch_size * IZR accumulation_steps)).

(** ** Dataset *)

(** A cell of the input table: a text or a score. *)
Inductive cell : Type :=
| Text (s : string)
| Number (x : R).

(** A [DataFrame]: named columns of one length. *)
Record DataFrame : Type := mk_DataFrame {
  df_len : nat;
  df_columns : list (string * list cell)
}.

Definition well_formed_df (df : DataFrame) : Prop :=
  Forall (fun c => length (snd c) = df_len df) (df_columns df).

Definition has_column (df : DataFrame) (name : string) : Prop :=
  dict_get (df_columns df) name <> None.

(** [df[name].values]: one column. *)
Definition df_column (df : DataFrame) (name : string) : outcome (list cell) :=
  match dict_get (df_columns df) name with
  | Some col => Return col
  | None => Raise (KeyError name)
  end.

(** The labels of a list that the table lacks. *)
Definition lacks (df : DataFrame) (name : string) : bool :=
  match dict_get (df_columns df) name with
  | Some _ => false
  | None => true
  end.

(** The labels that the key error of [df[names]] lists: the whole list
    when the table has none of them ("None of [...] are in the [columns]"),
    and otherwise the missing ones, each once ("[...] not in index"). *)
Definition missing_labels (df : DataFrame) (names : list string) : list string :=
  let missing := filter (lacks df) names in
  if Nat.eqb (length missing) (length names) then names
  else nodup string_dec missing.

(** [df[names]] for a list of labels: the columns in the order of the
    list, or one key error for all the labels that are missing. *)
Definition df_select (df : DataFrame) (names : list string) : outcome (list (list cell)) :=
  match filter (lacks df) names with
  | [] =>
      Return (map (fun name => match dict_get (df_columns df) name with
                               | Some col => col
                               | None => []
                               end) names)
  | _ :: _ => Raise (KeyErrorLabels (missing_labels df names))
  end.

(** [df[target_label].values]: the rows over the listed columns, a
    [(len(df), len(target_label))] array.  [target_label] defaults to
    [None], which is no column of the table. *)
Definition df_values (df : DataFrame) (target_label : option (list string))
  : outcome (list (list cell)) :=
  match target_label with
  | None => Raise (KeyError "None")
  | Some names =>
      cols <- df_select df names ;;
      Return (map (fun i => map (fun col => nth i col (Number 0)) cols)
                  (seq 0 (df_len df)))
  end.

(** What [tokenizer.encode_plus] gives back. *)
Record Encoding : Type := mk_Encoding {
  input_ids : list Z;
  attention_mask : list Z
}.

(** [encode_plus(text, truncation=True, add_special_tokens=True,
    max_length=n)]: the tokenizer is a collaborator, and may refuse its
    input. *)
Definition Tokenizer : Type := cell -> nat -> outcome Encoding.

Record FeedBackDataset : Type := mk_FeedBackDataset {
  df : DataFrame;
  max_len : nat;
  tokenizer : Tokenizer;
  texts : list cell;
  train_mode : bool;
  targets : option (list (list cell))   (* set in training mode only *)
}.

Definition FeedBackDataset_init (df : DataFrame) (tokenizer : Tokenizer)
    (max_length : nat) (target_label : option (list string)) (train_mode : bool)
  : outcome FeedBackDataset :=
  texts <- df_column df "full_text" ;;
  if train_mode then
    targets <- df_values df target_label ;;
    Return (mk_FeedBackDataset df max_length tokenizer texts train_mode (Some targets))
  else
    Return (mk_FeedBackDataset df max_length tokenizer texts train_mode None).

Definition FeedBackDataset_len (self : FeedBackDataset) : nat := df_len (df self).

(** The values of an example. *)
Inductive field : Type :=
| Ids (l : list Z)
| Target (row : list cell).

(** [a[index]] on the first axis of an array. *)
Definition array_getitem {A : Type} (a : list A) (i : Z) : outcome A :=
  k <- Py.index (length a) i ;;
  match nth_error a k with
  | Some x => Return x
  | None => Raise IndexError
  end.

Definition FeedBackDataset_getitem (self : FeedBackDataset) (index : Z)
  : outcome (dict field) :=
  text <- array_getitem (texts self) index ;;
  inputs <- tokenizer self text (max_len self) ;;
  if train_mode self then
    match targets self with
    | Some tg =>
        target <- array_getitem tg index ;;
        Return [("input_ids", Ids (input_ids inputs));
                ("attention_mask", Ids (attention_mask inputs));
                ("target", Target target)]
    | None => Raise (AttributeError "targets")
    end
  else
    Return [("input_ids", Ids (input_ids inputs));
            ("attention_mask", Ids (attention_mask inputs))].

(** ** Sample inputs *)

(** Two essays scored on the six targets, and predictions that are off by
    one on every score. *)
Definition sample_labels : np.ndarray :=
  np.mk_ndarray 2 6 [[3; 3.5; 3; 3; 4; 3]; [2.5; 2.5; 3; 2; 2; 2.5]].

Definition sample_predictions : np.ndarray :=
  np.mk_ndarray 2 6 [[4; 4.5; 4; 4; 5; 4]; [3.5; 3.5; 4; 3; 3; 3.5]].

Definition sample_eval : EvalPrediction :=
  mk_EvalPrediction sample_predictions sample_labels.

(** The same essays with three of the six columns only. *)
Definition narrow_labels : np.ndarray :=
  np.mk_ndarray 2 3 [[3; 3.5; 3]; [2.5; 2.5; 3]].

Definition narrow_eval : EvalPrediction :=
  mk_EvalPrediction narrow_labels narrow_labels.

(** The order of the entries as the contract lists them: the six columns,
    then the aggregate. *)
Definition columns_then_aggregate : list string :=
  ["cohesion_rmse"; "syntax_rmse"; "vocabulary_rmse"; "phraseology_rmse";
   "grammar_rmse"; "conventions_rmse"; "mcrmse"].

(** A batch of two predictions over the six targets, flattened. *)
Definition sample_outputs : torch.Tensor :=
  [3; 3.5; 3; 3; 4; 3; 2.5; 2.5; 3; 2; 2; 2.5].

Definition sample_targets : torch.Tensor :=
  [4; 4.5; 4; 4; 5; 4; 3.5; 3.5; 4; 3; 3; 3.5].

(** A table of two essays, a tokenizer that knows two token ids, and the
    six target columns. *)
Definition target_columns : list string :=
  ["cohesion"; "syntax"; "vocabulary"; "phraseology"; "grammar"; "conventions"].

Definition sample_frame : DataFrame :=
  mk_DataFrame 2
    [("text_id", [Text "0016926B079C"; Text "0022683E9EA5"]);
     ("full_text", [Text "I think that students would benefit";
                    Text "When a problem is a change"]);
     ("cohesion", [Number 3.5; Number 2.5]);
     ("syntax", [Number 3.5; Number 2.5]);
     ("vocabulary", [Number 3; Number 3]);
     ("phraseology", [Number 3; Number 2]);
     ("grammar", [Number 4; Number 2]);
     ("conventions", [Number 3; Number 2.5])].

Definition sample_tokenizer : Tokenizer :=
  fun text max_length =>
    match text with
    | Text _ => Return (mk_Encoding (firstn max_length [1; 273; 2]%Z)
                                    (firstn max_length [1; 1; 1]%Z))
    | Number _ => Raise (ValueError "text input must be of type str")
    end.

(** A model with no parameters: the set-up of its optimizer is about the
    schedule only. *)
Definition empty_model : nnModule := Mod [] [].

Definition sample_config : Config := mk_Config 2e-5 1e-3 0.01 3 10 2.

(** A small model: a backbone of an embedding block and two encoder
    layers under the attribute [model], and a regression head [fc]. *)
Definition sample_embeddings : nnModule :=
  Mod [] [("word_embeddings", Mod [("weight", 0%nat)] []);
          ("LayerNorm", Mod [("weight", 1%nat); ("bias", 2%nat)] [])].

Definition sample_layer (first : nat) : nnModule :=
  Mod [] [("attention", Mod [("weight", first); ("bias", S first)] []);
          ("LayerNorm", Mod [("weight", S (S first)); ("bias", S (S (S first)))] [])].

Definition sample_encoder : nnModule :=
  Mod [] [("layer", Mod [] [("0", sample_layer 10); ("1", sample_layer 20)])].

Definition sample_head : nnModule := Mod [("weight", 40%nat); ("bias", 41%nat)] [].

Definition sample_backbone : nnModule :=
  Mod [] [("embeddings", sample_embeddings); ("encoder", sample_encoder)].

Definition sample_model : nnModule :=
  Mod [] [("model", sample_backbone); ("fc", sample_head)].

(** The same model with a projection next to the embedding block, as the
    small ELECTRA backbones have: its parameters are named
    [model.embeddings_project.weight] and [model.embeddings_project.bias]. *)
Definition projected_backbone : nnModule :=
  Mod [] [("embeddings", sample_embeddings);
          ("embeddings_project", Mod [("weight", 30%nat); ("bias", 31%nat)] []);
          ("encoder", sample_encoder)].

Definition projected_model : nnModule :=
  Mod [] [("model", projected_backbone); ("fc", sample_head)].

(** The sample essays with a seventh column, and a batch with no row. *)
Definition wide_labels : np.ndarray :=
  np.mk_ndarray 2 7 [[3; 3.5; 3; 3; 4; 3; 1]; [2.5; 2.5; 3; 2; 2; 2.5; 1]].

Definition wide_predictions : np.ndarray :=
  np.mk_ndarray 2 7 [[4; 4.5; 4; 4; 5; 4; 4]; [3.5; 3.5; 4; 3; 3; 3.5; 4]].

Definition wide_eval : EvalPrediction := mk_EvalPrediction wide_predictions wide_labels.

Definition no_rows : np.ndarray := np.mk_ndarray 0 6 [].

Definition no_rows_eval : EvalPrediction := mk_EvalPrediction no_rows no_rows.

(** Three rows of labels against two rows of predictions. *)
Definition three_rows : np.ndarray :=
  np.mk_ndarray 3 6 [[3; 3.5; 3; 3; 4; 3]; [2.5; 2.5; 3; 2; 2; 2.5]; [3; 3; 3; 3; 3; 3]].

Definition mismatched_eval : EvalPrediction :=
  mk_EvalPrediction sample_predictions three_rows.



(** The sample backbone under a head that shares the weight of the word
    embeddings (parameter 0) and is registered before the backbone. *)
Definition tied_model : nnModule :=
  Mod [] [("lm_head", Mod [("weight", 0%nat)] []); ("model", sample_backbone)].

(** * Properties *)

(** ** Numbers *)

Lemma real_sqrt_nonneg (x : R) : 0 <= x -> real_sqrt x = Fin (sqrt x).
Proof. intros H. unfold real_sqrt. destruct (Rlt_dec x 0); [lra | reflexivity]. Qed.

Lemma Rsum_nonneg {A : Type} (f : A -> R) (l : list A) :
  (forall x, 0 <= f x) -> 0 <= Rsum (map f l).
Proof.
  intros H. induction l as [| x l IH]; [simpl; lra |].
  change (0 <= f x + Rsum (map f l)). specialize (H x). lra.
Qed.

(** ** Evaluation metric *)

Section Metrics.

Import np.

Lemma broadcast_dim_same (n : nat) : broadcast_dim n n = Some n.
Proof. unfold broadcast_dim. now rewrite Nat.eqb_refl. Qed.

Lemma nth_map_seq {A : Type} (g : nat -> A) (d : A) (m j : nat) :
  (j < m)%nat -> nth j (map g (seq 0 m)) d = g j.
Proof.
  intros Hj.
  rewrite (nth_indep _ d (g 0%nat)) by now rewrite length_map, length_seq.
  rewrite map_nth, seq_nth; auto.
Qed.

Lemma item_in_range (a : ndarray) (i j : nat) :
  (i < nrows a)%nat -> (j < ncols a)%nat -> item a i j = entry a i j.
Proof.
  intros Hi Hj. unfold item, entry.
  destruct (Nat.eqb_spec (ncols a) 1) as [Hc | _];
    destruct (Nat.eqb_spec (nrows a) 1) as [Hr | _];
    try (replace j with 0%nat by lia); try (replace i with 0%nat by lia);
    reflexivity.
Qed.

(** The squared differences of one column, as [compute_metrics] forms
    them. *)
Lemma column_square_subtract (l p d : ndarray) (j : nat) :
  same_shape l p -> subtract l p = Return d -> (j < ncols l)%nat ->
  ncols d = ncols l /\ nrows d = nrows l /\
  column (square d) j =
    map (fun i => (entry l i j - entry p i j) ^ 2) (seq 0 (nrows l)).
Proof.
  intros [Hn Hm] Hd Hj. unfold subtract, elementwise in Hd.
  rewrite <- Hn, <- Hm, !broadcast_dim_same in Hd.
  injection Hd as <-. cbn [ncols nrows]. repeat split.
  unfold column, square. cbn [rows]. rewrite !map_map.
  apply map_ext_in. intros i Hi. apply in_seq in Hi.
  rewrite map_map.
  rewrite (nth_map_seq (fun j => (item l i j - item p i j) ^ 2)) by assumption.
  rewrite !item_in_range by lia. reflexivity.
Qed.

Lemma subtract_same_shape (l p : ndarray) :
  same_shape l p ->
  exists d, subtract l p = Return d /\ ncols d = ncols l /\ nrows d = nrows l.
Proof.
  intros [Hn Hm]. unfold subtract, elementwise.
  rewrite <- Hn, <- Hm, !broadcast_dim_same. eexists. repeat split.
Qed.

(** One value per column comes out of the column-wise step. *)
Lemma colwise_rmse_length (p : EvalPrediction) :
  same_shape (label_ids p) (predictions p) ->
  exists v, colwise_rmse_of p = Return v /\ length v = ncols (label_ids p).
Proof.
  intros Hs. destruct (subtract_same_shape _ _ Hs) as (d & Hd & Hc & _).
  unfold colwise_rmse_of. rewrite Hd. simpl. eexists. split; [reflexivity |].
  unfold np.sqrt, mean_axis0. now rewrite !length_map, length_seq.
Qed.

(** With at least one row, every column value is the root of the mean
    squared error of its column. *)
Lemma colwise_rmse_spec (p : EvalPrediction) :
  same_shape (label_ids p) (predictions p) ->
  (1 <= nrows (label_ids p))%nat ->
  colwise_rmse_of p =
    Return (map (fun j => Fin (rmse_spec (label_ids p) (predictions p) j))
                (seq 0 (ncols (label_ids p)))).
Proof.
  intros Hs HN. destruct (subtract_same_shape _ _ Hs) as (d & Hd & Hc & Hr).
  unfold colwise_rmse_of. rewrite Hd. simpl. f_equal.
  unfold np.sqrt, mean_axis0. rewrite map_map. simpl. rewrite Hc.
  apply map_ext_in. intros j Hj. apply in_seq in Hj.
  destruct (column_square_subtract _ _ _ j Hs Hd) as (_ & _ & Hcol); [lia |].
  rewrite Hcol. unfold rmse_spec, mean.
  destruct (nrows (label_ids p)) as [| n] eqn:E; [lia |].
  rewrite <- E at 1. simpl seq at 1. cbv iota.
  simpl map at 1. cbv beta iota.
  rewrite length_map, length_seq, E. apply real_sqrt_nonneg.
  apply Rmult_le_pos.
  - apply Rsum_nonneg. intros i. apply pow2_ge_0.
  - left. apply Rinv_0_lt_compat, lt_0_INR. lia.
Qed.

Lemma Rsum_const (c : R) (l : list nat) :
  Rsum (map (fun _ => c) l) = INR (length l) * c.
Proof.
  induction l as [| x l IH]; [simpl; lra |].
  change (Rsum (map (fun _ => c) (x :: l))) with (c + Rsum (map (fun _ => c) l)).
  rewrite IH, length_cons, S_INR. lra.
Qed.

(** A column that is off by the constant [c] in every row has the root
    mean squared error [|c|]. *)
Lemma rmse_spec_shift (l p : ndarray) (j : nat) (c : R) :
  (1 <= nrows l)%nat ->
  (forall i, (i < nrows l)%nat -> entry p i j = entry l i j + c) ->
  rmse_spec l p j = Rabs c.
Proof.
  intros HN Hc. unfold rmse_spec.
  rewrite (map_ext_in _ (fun _ => c ^ 2)).
  - rewrite Rsum_const, length_seq.
    replace (INR (nrows l) * c ^ 2 / INR (nrows l)) with (Rsqr c).
    + apply sqrt_Rsqr_abs.
    + unfold Rsqr. field. apply not_0_INR. lia.
  - intros i Hi. apply in_seq in Hi. rewrite Hc by lia. ring.
Qed.

(** The dictionary is built from the column values in one way. *)
Lemma compute_metrics_of_colwise (p : EvalPrediction) (r : nat -> R) :
  colwise_rmse_of p = Return (map (fun j => Fin (r j)) (seq 0 6)) ->
  compute_metrics p = Return (metrics_of r).
Proof.
  intros H. unfold compute_metrics. rewrite H. simpl.
  unfold metrics_of.
  assert (E : forall a b c d e f : R,
             (a + (b + (c + (d + (e + (f + 0)))))) / (1 + 1 + 1 + 1 + 1 + 1)
             = (a + b + c + d + e + f) / 6) by (intros; lra).
  rewrite E. reflexivity.
Qed.

Lemma compute_metrics_spec (p : EvalPrediction) :
  same_shape (label_ids p) (predictions p) ->
  ncols (label_ids p) = 6%nat -> (1 <= nrows (label_ids p))%nat ->
  compute_metrics p = Return (metrics_of (rmse_spec (label_ids p) (predictions p))).
Proof.
  intros Hs Hc HN. apply compute_metrics_of_colwise.
  rewrite <- Hc. now apply colwise_rmse_spec.
Qed.

End Metrics.

Lemma sample_labels_shape : has_shape sample_labels 2 6.
Proof. repeat split. repeat constructor. Qed.

Lemma sample_predictions_shape : has_shape sample_predictions 2 6.
Proof. repeat split. repeat constructor. Qed.

Lemma has_shape_same (a b : np.ndarray) (n m : nat) :
  has_shape a n m -> has_shape b n m -> np.same_shape a b.
Proof. intros (_ & Ha & Ha') (_ & Hb & Hb'). split; congruence. Qed.

Lemma Rsum_zero {A : Type} (f : A -> R) (l : list A) :
  (forall x, In x l -> f x = 0) -> Rsum (map f l) = 0.
Proof.
  induction l as [| x l IH]; intros H; [reflexivity |].
  change (f x + Rsum (map f l) = 0).
  rewrite H by now left. rewrite IH; [lra |]. intros y Hy. apply H. now right.
Qed.

(** C1. For predictions and labels of shape (N, 6) with N >= 1,
    [compute_metrics] returns, per column, the square root of the
    column-wise mean of (l - p)^2, and as aggregate the unweighted mean of
    the six column values.  When l = p every value is 0, and when p is l
    plus a constant [c j] in each column [j], the value of column [j] is
    [|c j|]. *)
Theorem compute_metrics_columnwise_rmse (p : EvalPrediction) (N : nat) :
  has_shape (predictions p) N 6 -> has_shape (label_ids p) N 6 -> (1 <= N)%nat ->
  compute_metrics p = Return (metrics_of (rmse_spec (label_ids p) (predictions p)))
  /\ (label_ids p = predictions p ->
      exists d, compute_metrics p = Return d /\
                keys d = metric_names /\ Forall (fun kv => snd kv = Fin 0) d)
  /\ (forall c : nat -> R,
        (forall i j, (i < N)%nat -> (j < 6)%nat ->
                     entry (predictions p) i j = entry (label_ids p) i j + c j) ->
        compute_metrics p = Return (metrics_of (fun j => Rabs (c j)))).
Proof.
  intros HP HL HN.
  assert (Hs : np.same_shape (label_ids p) (predictions p))
    by exact (has_shape_same _ _ _ _ HL HP).
  destruct HL as (_ & Hrows & Hcols).
  assert (Hcol : colwise_rmse_of p =
                 Return (map (fun j => Fin (rmse_spec (label_ids p) (predictions p) j))
                             (seq 0 6))).
  { rewrite <- Hcols. apply colwise_rmse_spec; [assumption | lia]. }
  split; [| split].
  - now apply compute_metrics_of_colwise.
  - intros E. exists (metrics_of (fun _ => 0)). split; [| split].
    + apply compute_metrics_of_colwise. rewrite Hcol. f_equal.
      apply map_ext. intros j. f_equal. unfold rmse_spec. rewrite E.
      rewrite Rsum_zero by (intros; ring).
      unfold Rdiv. rewrite Rmult_0_l. apply sqrt_0.
    + reflexivity.
    + unfold metrics_of. repeat constructor. simpl. f_equal. lra.
  - intros c Hc. apply compute_metrics_of_colwise. rewrite Hcol. f_equal.
    apply map_ext_in. intros j Hj. apply in_seq in Hj. f_equal.
    apply rmse_spec_shift; [lia |]. intros i Hi. apply Hc; lia.
Qed.

Lemma compute_metrics_columnwise_rmse_witness :
  compute_metrics sample_eval = Return (metrics_of (fun _ => 1)).
Proof.
  destruct (compute_metrics_columnwise_rmse sample_eval 2
              sample_predictions_shape sample_labels_shape) as (_ & _ & H).
  - lia.
  - rewrite (H (fun _ => 1)).
    + unfold metrics_of. rewrite Rabs_R1. reflexivity.
    + intros i j Hi Hj.
      destruct i as [| [| i]]; [| | lia];
        (destruct j as [| [| [| [| [| [| j]]]]]]; [| | | | | | lia]);
        unfold entry; simpl; lra.
Defined.

(** C8. With fewer than six columns [compute_metrics] ends in an index
    error and returns nothing; with six columns or more it returns. *)
Theorem compute_metrics_needs_six_columns (p : EvalPrediction) :
  np.same_shape (label_ids p) (predictions p) ->
  ((np.ncols (label_ids p) < 6)%nat -> compute_metrics p = Raise IndexError) /\
  ((6 <= np.ncols (label_ids p))%nat -> exists d, compute_metrics p = Return d).
Proof.
  intros Hs. destruct (colwise_rmse_length p Hs) as (v & Hv & Hlen).
  unfold compute_metrics. rewrite Hv. rewrite <- Hlen. clear Hv Hlen.
  split; intros H;
    destruct v as [| a0 [| a1 [| a2 [| a3 [| a4 [| a5 v]]]]]];
    simpl in H; try lia; try reflexivity.
  eexists. reflexivity.
Qed.

Lemma compute_metrics_needs_six_columns_witness :
  compute_metrics narrow_eval = Raise IndexError /\
  exists d, compute_metrics sample_eval = Return d.
Proof.
  split.
  - apply (compute_metrics_needs_six_columns narrow_eval).
    + split; reflexivity.
    + simpl. lia.
  - apply (compute_metrics_needs_six_columns sample_eval).
    + split; reflexivity.
    + simpl. lia.
Defined.

(** C6, as stated, fails: the aggregate is the first entry of the
    dictionary, not the last. *)
Lemma compute_metrics_order_counterexample :
  has_shape (predictions sample_eval) 2 6 /\ has_shape (label_ids sample_eval) 2 6 /\
  ~ (exists d, compute_metrics sample_eval = Return d /\
               keys d = columns_then_aggregate).
Proof.
  split; [exact sample_predictions_shape |]. split; [exact sample_labels_shape |].
  intros (d & Hd & Hk).
  rewrite (compute_metrics_spec sample_eval) in Hd;
    [| split; reflexivity | reflexivity | simpl; lia].
  injection Hd as <-. discriminate Hk.
Qed.

(** C6, amended. For every input of shape (N, 6), [compute_metrics] returns
    a dictionary of exactly seven named numeric entries: the aggregate
    [mcrmse] first, then cohesion, syntax, vocabulary, phraseology, grammar
    and conventions in this order. *)
Theorem compute_metrics_seven_entries (p : EvalPrediction) (N : nat) :
  has_shape (predictions p) N 6 -> has_shape (label_ids p) N 6 ->
  exists d, compute_metrics p = Return d /\
            keys d = metric_names /\ length d = 7%nat.
Proof.
  intros HP HL.
  assert (Hs : np.same_shape (label_ids p) (predictions p))
    by exact (has_shape_same _ _ _ _ HL HP).
  destruct HL as (_ & _ & Hcols).
  destruct (colwise_rmse_length p Hs) as (v & Hv & Hlen).
  unfold compute_metrics. rewrite Hv. rewrite Hcols in Hlen. clear Hv.
  destruct v as [| a0 [| a1 [| a2 [| a3 [| a4 [| a5 [| a6 v]]]]]]];
    simpl in Hlen; try lia.
  eexists. split; [reflexivity |]. split; reflexivity.
Qed.

Lemma compute_metrics_seven_entries_witness :
  exists d, compute_metrics sample_eval = Return d /\
            keys d = metric_names /\ length d = 7%nat.
Proof.
  exact (compute_metrics_seven_entries sample_eval 2
           sample_predictions_shape sample_labels_shape).
Defined.

(** ** Loss functions *)

Section Loss.

Lemma epsilon_pos : 0 < 1e-9.
Proof. lra. Qed.

(** The three steps of [forward] are one pass over the paired entries. *)
Lemma forward_elementwise (e : R) (p t : torch.Tensor) :
  torch.sqrt (torch.add_scalar (torch.mse_none p t) e) = rmse_elementwise e p t.
Proof.
  unfold torch.sqrt, torch.add_scalar, torch.mse_none, torch.zip_with, rmse_elementwise.
  now rewrite !map_map.
Qed.

Lemma forward_strategy (s : strategy) (e : R) (p t : torch.Tensor) :
  forward (mk_RMSELoss (strategy_name s) e) p t = reduce s (rmse_elementwise e p t).
Proof.
  unfold forward. rewrite forward_elementwise. now destruct s.
Qed.

(** With a positive epsilon no entry is [nan]. *)
Lemma rmse_elementwise_fin (e : R) (p t : torch.Tensor) :
  0 < e ->
  rmse_elementwise e p t =
    map (fun xy => Fin (sqrt ((fst xy - snd xy) ^ 2 + e))) (combine p t).
Proof.
  intros He. unfold rmse_elementwise. apply map_ext. intros [x y].
  apply real_sqrt_nonneg. pose proof (pow2_ge_0 (fst (x, y) - snd (x, y))). lra.
Qed.

Lemma sum_num_fin {A : Type} (f : A -> R) (l : list A) :
  sum_num (map (fun x => Fin (f x)) l) = Fin (Rsum (map f l)).
Proof.
  induction l as [| x l IH]; [reflexivity |].
  unfold sum_num in *. simpl. now rewrite IH.
Qed.

Lemma mean_num_fin {A : Type} (f : A -> R) (l : list A) :
  l <> [] ->
  mean_num (map (fun x => Fin (f x)) l) = Fin (Rsum (map f l) / INR (length l)).
Proof.
  intros Hl. destruct l as [| x l]; [congruence |].
  unfold mean_num. rewrite sum_num_fin, length_map. reflexivity.
Qed.

Lemma combine_nonempty {A B : Type} (p : list A) (t : list B) :
  length p = length t -> p <> [] -> combine p t <> [].
Proof. destruct p, t; simpl; congruence. Qed.

Lemma combine_self {A : Type} (p : list A) :
  combine p p = map (fun x => (x, x)) p.
Proof. induction p as [| x p IH]; simpl; congruence. Qed.

Lemma forward_nonneg (s : strategy) (p t : torch.Tensor) :
  length p = length t -> (s = Mean -> p <> []) ->
  loss_ge0 (forward (mk_RMSELoss (strategy_name s) 1e-9) p t).
Proof.
  intros Hlen Hne.
  rewrite forward_strategy, (rmse_elementwise_fin _ _ _ epsilon_pos).
  destruct s; simpl.
  - rewrite mean_num_fin by (apply combine_nonempty; auto). simpl.
    apply Rmult_le_pos.
    + apply Rsum_nonneg. intros xy. apply sqrt_pos.
    + left. apply Rinv_0_lt_compat, lt_0_INR.
      pose proof (combine_nonempty p t Hlen (Hne eq_refl)) as Hc.
      destruct (combine p t); [congruence | simpl; lia].
  - rewrite sum_num_fin. simpl. apply Rsum_nonneg. intros xy. apply sqrt_pos.
  - apply Forall_map, Forall_forall. intros xy _. simpl. apply sqrt_pos.
Qed.

Lemma forward_default_same (p : torch.Tensor) :
  p <> [] -> forward RMSELoss_default p p = Scalar (Fin (sqrt 1e-9)).
Proof.
  intros Hp. change RMSELoss_default with (mk_RMSELoss (strategy_name Mean) 1e-9).
  rewrite forward_strategy, (rmse_elementwise_fin _ _ _ epsilon_pos). simpl.
  rewrite combine_self, map_map. cbn [fst snd].
  rewrite (map_ext _ (fun _ => Fin (sqrt 1e-9)))
    by (intros x; do 2 f_equal; ring).
  rewrite mean_num_fin by assumption.
  do 2 f_equal.
  assert (H : forall l : list R,
             Rsum (map (fun _ => sqrt 1e-9) l) = INR (length l) * sqrt 1e-9).
  { induction l as [| x l IH]; [simpl; lra |].
    change (sqrt 1e-9 + Rsum (map (fun _ => sqrt 1e-9) l)
            = INR (S (length l)) * sqrt 1e-9).
    rewrite IH, S_INR. lra. }
  rewrite H. field. apply not_0_INR. destruct p; simpl; congruence.
Qed.

Lemma select_loss_unrecognized (loss_type : string) :
  ~ recognized loss_type -> select_loss loss_type = None.
Proof.
  intros H. unfold select_loss, recognized in *.
  destruct (String.eqb_spec loss_type "mse"); [tauto |].
  destruct (String.eqb_spec loss_type "rmse"); [tauto |].
  destruct (String.eqb_spec loss_type "smooth_l1"); [tauto |].
  reflexivity.
Qed.

End Loss.

(** C2, as stated, fails on the empty tensor: the mean over no entry is
    [nan], which is neither non-negative nor the root of epsilon. *)
Lemma rmse_loss_empty_counterexample :
  length (@nil R) = length (@nil R) /\
  loss_fn [] [] "rmse" = Return (Scalar NaN) /\
  ~ loss_ge0 (forward RMSELoss_default [] []) /\
  forward RMSELoss_default [] [] <> Scalar (Fin (sqrt 1e-9)).
Proof.
  split; [reflexivity |]. split; [reflexivity |]. split.
  - simpl. tauto.
  - discriminate.
Qed.

(** C2, amended. For predictions p and targets t of one shape with at
    least one entry, the rmse loss is sqrt(squared error + 1e-9) entry by
    entry, reduced by the configured strategy (mean, sum, or left
    elementwise for 'none'); it is non-negative; and under the default mean
    reduction the loss of p against itself is sqrt(1e-9). *)
Theorem rmse_loss_reduced (s : strategy) (p t : torch.Tensor) :
  length p = length t -> p <> [] ->
  forward (mk_RMSELoss (strategy_name s) 1e-9) p t = reduce s (rmse_elementwise 1e-9 p t)
  /\ loss_ge0 (forward (mk_RMSELoss (strategy_name s) 1e-9) p t)
  /\ loss_fn p t "rmse" = Return (forward RMSELoss_default p t)
  /\ loss_fn p p "rmse" = Return (Scalar (Fin (sqrt 1e-9))).
Proof.
  intros Hlen Hp. split; [| split; [| split]].
  - apply forward_strategy.
  - apply forward_nonneg; auto.
  - reflexivity.
  - unfold loss_fn. simpl. unfold torch.float. now rewrite forward_default_same.
Qed.

Lemma rmse_loss_reduced_witness :
  loss_ge0 (forward (mk_RMSELoss "mean" 1e-9) sample_outputs sample_targets) /\
  loss_fn sample_outputs sample_outputs "rmse" = Return (Scalar (Fin (sqrt 1e-9))).
Proof.
  destruct (rmse_loss_reduced Mean sample_outputs sample_targets) as (_ & H & _ & H').
  - reflexivity.
  - discriminate.
  - split; [exact H | exact H'].
Defined.

(** C10. A reduction that is none of 'none', 'sum' and 'mean' does not make
    [forward] fail: it returns the unreduced tensor
    sqrt(squared error + eps), as the 'none' reduction does. *)
Theorem rmse_unknown_reduction_unreduced (red : string) (e : R) (p t : torch.Tensor) :
  red <> "none" -> red <> "sum" -> red <> "mean" ->
  length p = length t ->
  forward (mk_RMSELoss red e) p t = Elementwise (rmse_elementwise e p t) /\
  forward (mk_RMSELoss red e) p t = forward (mk_RMSELoss "none" e) p t.
Proof.
  intros Hn Hs Hm _. unfold forward. cbv zeta. cbn [reduction eps].
  rewrite forward_elementwise.
  destruct (String.eqb_spec red "none"); [contradiction |].
  destruct (String.eqb_spec red "sum"); [contradiction |].
  destruct (String.eqb_spec red "mean"); [contradiction |].
  split; reflexivity.
Qed.

Lemma rmse_unknown_reduction_unreduced_witness :
  forward (mk_RMSELoss "max" 1e-9) sample_outputs sample_targets
  = forward (mk_RMSELoss "none" 1e-9) sample_outputs sample_targets.
Proof.
  apply (rmse_unknown_reduction_unreduced "max" 1e-9 sample_outputs sample_targets);
    try discriminate; reflexivity.
Defined.

(** C9, as stated, fails: an unknown loss kind ends in the interpreter's
    error for the unbound [loss_func], not in a descriptive one. *)
Lemma loss_fn_unknown_kind_counterexample :
  ~ recognized "huber" /\
  ~ (exists e, loss_fn sample_outputs sample_targets "huber" = Raise e /\
               descriptive e = true).
Proof.
  split.
  - intros [H | [H | H]]; discriminate H.
  - intros (e & He & Hd). injection He as <-. discriminate Hd.
Qed.

(** C9, amended. For every loss kind that is none of mse, rmse and
    smooth_l1, [loss_fn] returns no value: it ends, before any loss is
    computed, in the [UnboundLocalError] of the local [loss_func] that no
    branch has bound. *)
Theorem loss_fn_unknown_kind_unbound (loss_type : string) (outputs labels : torch.Tensor) :
  ~ recognized loss_type ->
  loss_fn outputs labels loss_type = Raise (UnboundLocalError "loss_func").
Proof.
  intros H. unfold loss_fn. now rewrite select_loss_unrecognized.
Qed.

Lemma loss_fn_unknown_kind_unbound_witness :
  loss_fn sample_outputs sample_targets "huber" = Raise (UnboundLocalError "loss_func").
Proof.
  apply loss_fn_unknown_kind_unbound.
  intros [H | [H | H]]; discriminate H.
Defined.

(** ** Training steps *)

Section Steps.

Local Open Scope Z_scope.

(** Python's [//] on integers is the floor of the real quotient. *)
Lemma floordiv_floor (a b : Z) :
  b <> 0 -> a / b = Zfloor (IZR a / IZR b)%R.
Proof.
  intros Hb. symmetry. apply Zfloor_eq.
  pose proof (Z.div_mod a b Hb) as Hdm.
  assert (HR : (IZR a = IZR b * IZR (a / b) + IZR (a mod b))%R)
    by (rewrite <- mult_IZR, <- plus_IZR; now f_equal).
  assert (Hb' : IZR b <> 0%R) by (intros E; apply eq_IZR in E; contradiction).
  replace (IZR a / IZR b)%R with (IZR (a / b) + IZR (a mod b) / IZR b)%R
    by (rewrite HR; field; assumption).
  assert (Hfrac : (0 <= IZR (a mod b) / IZR b < 1)%R).
  { destruct (Z.lt_total b 0) as [Hneg | [E | Hpos]]; [| contradiction |].
    - destruct (Z.mod_neg_bound a b Hneg) as [Hlo Hhi].
      apply IZR_lt in Hlo, Hneg. apply IZR_le in Hhi.
      replace (IZR (a mod b) / IZR b)%R with (- IZR (a mod b) / - IZR b)%R
        by (field; assumption).
      split.
      + apply Rmult_le_pos; [lra |]. left. apply Rinv_0_lt_compat. lra.
      + apply Rmult_lt_reg_r with (- IZR b)%R; [lra |].
        unfold Rdiv. rewrite Rmult_assoc, Rinv_l by lra. lra.
    - destruct (Z.mod_pos_bound a b Hpos) as [Hlo Hhi].
      apply IZR_lt in Hhi, Hpos. apply IZR_le in Hlo.
      split.
      + apply Rmult_le_pos; [lra |]. left. apply Rinv_0_lt_compat. lra.
      + apply Rmult_lt_reg_r with (IZR b); [lra |].
        unfold Rdiv. rewrite Rmult_assoc, Rinv_l by lra. lra. }
  lra.
Qed.

Lemma steps_floor (size e b a : Z) :
  b * a <> 0 -> size * e / (b * a) = total_steps_spec size e b a.
Proof.
  intros H. rewrite floordiv_floor by assumption.
  unfold total_steps_spec. rewrite !mult_IZR. f_equal. f_equal. apply Rmult_comm.
Qed.

End Steps.

(** C5. Whenever the groups are built and batch_size x accumulation_steps
    is not zero, [optimizer_setup] hands the scheduler
    floor(epochs x dataset_size / (batch_size x accumulation_steps)) training
    steps and a tenth of them as warm-up; for dataset_size = 1000,
    epochs = 3, batch_size = 10 and accumulate = 2 these are 150 and 15. *)
Theorem optimizer_setup_steps (model : nnModule) (config : Config) (size : Z)
    (layerwise : bool) (groups : list param_group) :
  optimizer_parameters_of model config layerwise = Return groups ->
  (train_batch_size config * n_accumulate config <> 0)%Z ->
  exists optimizer scheduler,
    optimizer_setup model config size layerwise = Return (optimizer, scheduler) /\
    num_training_steps scheduler
      = total_steps_spec size (epochs config) (train_batch_size config) (n_accumulate config) /\
    num_warmup_steps scheduler = IZR (num_training_steps scheduler) / 10 /\
    (size = 1000%Z -> epochs config = 3%Z -> train_batch_size config = 10%Z ->
     n_accumulate config = 2%Z ->
     num_training_steps scheduler = 150%Z /\ num_warmup_steps scheduler = 15).
Proof.
  intros Hg Hnz. unfold optimizer_setup. rewrite Hg. cbn [bind]. unfold floordiv.
  destruct (Z.eqb_spec (train_batch_size config * n_accumulate config) 0) as [E | _];
    [contradiction |].
  cbn [bind]. do 2 eexists. split; [reflexivity |]. cbn [num_training_steps num_warmup_steps].
  split; [now apply steps_floor |]. split; [lra |].
  intros -> -> -> ->. split; [reflexivity |].
  change (1000 * 3 / (10 * 2))%Z with 150%Z. lra.
Qed.

Lemma optimizer_setup_steps_witness :
  exists optimizer scheduler,
    optimizer_setup empty_model sample_config 1000 false = Return (optimizer, scheduler) /\
    num_training_steps scheduler = 150%Z /\ num_warmup_steps scheduler = 15.
Proof.
  destruct (optimizer_setup_steps empty_model sample_config 1000 false
              (plain_groups empty_model sample_config) eq_refl)
    as (o & sc & H & _ & _ & H').
  - simpl. lia.
  - exists o, sc. split; [exact H |]. now apply H'.
Defined.

(** ** Dataset adapter *)

Section Dataset.

Lemma dict_get_In {V : Type} (d : dict V) (k : string) (v : V) :
  dict_get d k = Some v -> In (k, v) d.
Proof.
  induction d as [| [k' v'] d IH]; simpl; [discriminate |].
  destruct (String.eqb_spec k k') as [-> | _].
  - intros [= ->]. now left.
  - intros H. right. auto.
Qed.

Lemma df_column_length (frame : DataFrame) (name : string) (col : list cell) :
  well_formed_df frame -> df_column frame name = Return col ->
  length col = df_len frame.
Proof.
  intros Hwf H. unfold df_column in H.
  destruct (dict_get (df_columns frame) name) as [c |] eqn:E; [| discriminate].
  injection H as <-. apply dict_get_In in E.
  unfold well_formed_df in Hwf. rewrite Forall_forall in Hwf.
  exact (Hwf _ E).
Qed.

Lemma df_select_length (frame : DataFrame) (names : list string) :
  forall cols, df_select frame names = Return cols -> length cols = length names.
Proof.
  intros cols H. unfold df_select in H.
  destruct (filter (lacks frame) names); [| discriminate].
  injection H as <-. apply length_map.
Qed.

(** An index that is accepted lies inside the sequence. *)
Lemma index_in_range (n : nat) (i : Z) (k : nat) :
  Py.index n i = Return k -> (k < n)%nat.
Proof.
  unfold Py.index.
  destruct ((0 <=? i)%Z && (i <? Z.of_nat n)%Z) eqn:E1.
  - intros [= <-]. apply andb_prop in E1 as [H1 H2]. lia.
  - destruct ((- Z.of_nat n <=? i)%Z && (i <? 0)%Z) eqn:E2; [| discriminate].
    intros [= <-]. apply andb_prop in E2 as [H1 H2]. lia.
Qed.

Lemma array_getitem_index {A : Type} (a : list A) (i : Z) (x : A) :
  array_getitem a i = Return x ->
  exists k, Py.index (length a) i = Return k /\ (k < length a)%nat.
Proof.
  unfold array_getitem. destruct (Py.index (length a) i) as [k | e] eqn:E;
    [| discriminate].
  intros _. exists k. split; [reflexivity |]. now apply index_in_range in E.
Qed.

(** Row [index] of the target array has one entry per listed column. *)
Lemma targets_row (frame : DataFrame) (names : list string)
    (tg : list (list cell)) (i : Z) (k : nat) :
  df_values frame (Some names) = Return tg ->
  Py.index (df_len frame) i = Return k ->
  exists row, array_getitem tg i = Return row /\ length row = length names.
Proof.
  intros Hv Hk. unfold df_values in Hv.
  destruct (df_select frame names) as [cols | e] eqn:Hsel; [| discriminate].
  simpl in Hv. injection Hv as <-.
  unfold array_getitem. rewrite length_map, length_seq, Hk. cbn [bind].
  apply index_in_range in Hk.
  rewrite nth_error_map, nth_error_nth' with (d := 0%nat) by now rewrite length_seq.
  rewrite seq_nth by assumption. simpl. eexists. split; [reflexivity |].
  rewrite length_map. now apply df_select_length in Hsel.
Qed.

End Dataset.

(** C7. For every valid index whose text the tokenizer accepts, the
    example of the dataset adapter has no target entry in inference mode,
    and in training mode it has a target entry with one value per
    configured target column (six for the six columns). *)
Theorem getitem_target_entry (frame : DataFrame) (tok : Tokenizer) (max_length : nat)
    (target_label : option (list string)) (mode : bool)
    (self : FeedBackDataset) (index : Z) (text : cell) (inputs : Encoding) :
  well_formed_df frame ->
  FeedBackDataset_init frame tok max_length target_label mode = Return self ->
  array_getitem (texts self) index = Return text ->
  tok text max_length = Return inputs ->
  exists example,
    FeedBackDataset_getitem self index = Return example /\
    if mode
    then exists labels row,
           target_label = Some labels /\
           dict_get example "target" = Some (Target row) /\
           length row = length labels /\
           (length labels = 6%nat -> length row = 6%nat)
    else dict_get example "target" = None.
Proof.
  intros Hwf Hinit Htext Htok. unfold FeedBackDataset_init in Hinit.
  destruct (df_column frame "full_text") as [txt | e] eqn:Hcol; [| discriminate].
  cbn [bind] in Hinit. destruct mode.
  - destruct target_label as [labels |]; [| discriminate].
    destruct (df_values frame (Some labels)) as [tg | e] eqn:Hv; [| discriminate].
    cbn [bind] in Hinit. injection Hinit as <-. cbn [texts] in Htext.
    destruct (array_getitem_index _ _ _ Htext) as (k & Hk & _).
    rewrite (df_column_length _ _ _ Hwf Hcol) in Hk.
    destruct (targets_row _ _ _ _ _ Hv Hk) as (row & Hrow & Hlen).
    unfold FeedBackDataset_getitem. cbn [texts tokenizer max_len train_mode targets].
    rewrite Htext. cbn [bind]. rewrite Htok. cbn [bind]. rewrite Hrow. cbn [bind].
    eexists. split; [reflexivity |]. exists labels, row.
    repeat split; [assumption | congruence].
  - injection Hinit as <-. cbn [texts] in Htext.
    unfold FeedBackDataset_getitem. cbn [texts tokenizer max_len train_mode targets].
    rewrite Htext. cbn [bind]. rewrite Htok. cbn [bind].
    eexists. split; reflexivity.
Qed.

Lemma sample_frame_well_formed : well_formed_df sample_frame.
Proof. unfold well_formed_df. repeat constructor. Qed.

Lemma getitem_target_entry_witness :
  (exists self example row,
     FeedBackDataset_init sample_frame sample_tokenizer 512 (Some target_columns) true
       = Return self /\
     FeedBackDataset_getitem self (-1) = Return example /\
     dict_get example "target" = Some (Target row) /\ length row = 6%nat) /\
  (exists self example,
     FeedBackDataset_init sample_frame sample_tokenizer 512 None false = Return self /\
     FeedBackDataset_getitem self 0 = Return example /\
     dict_get example "target" = None).
Proof.
  split.
  - destruct (getitem_target_entry sample_frame sample_tokenizer 512
                (Some target_columns) true _ (-1) _ _
                sample_frame_well_formed eq_refl eq_refl eq_refl)
      as (example & Hex & labels & row & Hl & Hrow & _ & Hsix).
    eexists. exists example, row. split; [reflexivity |].
    split; [exact Hex |]. split; [exact Hrow |].
    apply Hsix. injection Hl as <-. reflexivity.
  - destruct (getitem_target_entry sample_frame sample_tokenizer 512
                None false _ 0 _ _
                sample_frame_well_formed eq_refl eq_refl eq_refl)
      as (example & Hex & Hnone).
    eexists. exists example. split; [reflexivity |]. split; [exact Hex | exact Hnone].
Defined.

(** ** Layerwise learning rates *)

Section Rates.

Variables wd dc : R.

Lemma for_layers_app (layers : list nnModule) :
  forall groups rate,
    for_layers wd dc layers groups rate = groups ++ for_layers wd dc layers [] rate.
Proof.
  induction layers as [| layer rest IH]; intros groups rate; simpl.
  - now rewrite app_nil_r.
  - rewrite (IH (groups ++ _)), (IH (layer_groups _ _ _)). now rewrite app_assoc.
Qed.

(** The loop gives the layer visited after [k] others the rate
    [base * dc ^ k]. *)
Lemma for_layers_from (base : R) (layers : list nnModule) :
  forall k,
    for_layers wd dc layers [] (rate_at base dc k) =
    flat_map (fun kl => layer_groups wd (rate_at base dc (fst kl)) (snd kl))
             (combine (seq k (length layers)) layers).
Proof.
  induction layers as [| layer rest IH]; intros k; [reflexivity |].
  cbn [for_layers length seq combine flat_map fst snd app].
  rewrite for_layers_app. f_equal.
  replace (rate_at base dc k * dc) with (rate_at base dc (S k))
    by (unfold rate_at; simpl; ring).
  apply IH.
Qed.

Lemma non_increasing_cons (r : R) (l : list R) :
  Forall (fun x => x <= r) l -> non_increasing l -> non_increasing (r :: l).
Proof.
  intros Hall Hl. destruct l as [| y l]; [exact I |].
  split; [now inversion Hall | exact Hl].
Qed.

(** Below a non-negative rate and with a factor between 0 and 1 the
    rates of the loop never rise. *)
Lemma for_layers_non_increasing (layers : list nnModule) :
  0 <= dc <= 1 ->
  forall rate, 0 <= rate ->
    Forall (fun x => x <= rate) (rates_of (for_layers wd dc layers [] rate)) /\
    non_increasing (rates_of (for_layers wd dc layers [] rate)).
Proof.
  intros Hdc. induction layers as [| layer rest IH]; intros rate Hr.
  - split; [constructor | exact I].
  - cbn [for_layers app]. rewrite for_layers_app.
    assert (Hr' : 0 <= rate * dc) by (apply Rmult_le_pos; lra).
    assert (Hle : rate * dc <= rate) by nra.
    destruct (IH (rate * dc) Hr') as [Hall Hmono].
    assert (Hall' : Forall (fun x => x <= rate)
                      (rates_of (for_layers wd dc rest [] (rate * dc)))).
    { eapply Forall_impl; [| exact Hall]. simpl. intros x Hx. lra. }
    change (rates_of (layer_groups wd rate layer ++ for_layers wd dc rest [] (rate * dc)))
      with (rate :: rate :: rates_of (for_layers wd dc rest [] (rate * dc))).
    split.
    + constructor; [lra | constructor; [lra | exact Hall']].
    + apply non_increasing_cons; [constructor; [lra | exact Hall'] |].
      now apply non_increasing_cons.
Qed.

End Rates.

(** What [get_optimizer_grouped_parameters] returns on a model with the
    attributes it reads: three groups, then the groups of the loop. *)
Lemma grouped_parameters_layout (model backbone embeddings encoder layer : nnModule)
    (base dlr wd dc : R) :
  getattr model "model" = Return backbone ->
  getattr backbone "embeddings" = Return embeddings ->
  getattr backbone "encoder" = Return encoder ->
  getattr encoder "layer" = Return layer ->
  exists g0 g1 g2,
    get_optimizer_grouped_parameters model base dlr wd dc =
      Return ([g0; g1; g2] ++
              for_layers wd dc (rev (module_list layer) ++ [embeddings]) [] base) /\
    g0 = mk_group (select is_head (named_parameters model)) 0.0 (Some dlr) /\
    g1 = mk_group (select decays (filter (fun np => is_extra (fst np))
                                         (named_parameters model))) wd (Some base) /\
    g2 = mk_group (select (any_in no_decay)
                          (filter (fun np => is_extra (fst np))
                                  (named_parameters model))) 0.0 (Some base).
Proof.
  intros Hb He Hc Hl. unfold get_optimizer_grouped_parameters, layers_of.
  rewrite Hb. cbn [bind]. rewrite He. cbn [bind]. rewrite Hc. cbn [bind].
  rewrite Hl. cbn [bind]. do 3 eexists. split; [| repeat split].
  rewrite for_layers_app. cbn [rev app]. reflexivity.
Qed.

(** C4, as stated, fails: a decay factor of -2 is below 1, and the rates
    of the three layers of the sample model are 1, -2 and 4. *)
Lemma layerwise_rates_counterexample :
  -2 <= 1 /\
  exists groups,
    get_optimizer_grouped_parameters sample_model 1 1e-3 0.01 (-2) = Return groups /\
    ~ non_increasing (rates_of (layer_part groups)).
Proof.
  split; [lra |]. eexists. split; [reflexivity |].
  cbn -[Rmult Rle]. lra.
Qed.

(** C4, amended. The loop visits the encoder layers from the last to the
    first and then the embedding block; the groups of the first layer
    visited get the layerwise base rate, and those of the layer visited
    after [k] others get the base rate times the decay factor to the power
    [k]; for a non-negative base rate and a decay factor between 0 and 1
    the rates never rise from the top layer down to the embedding block. *)
Theorem layerwise_rates_decay (model backbone embeddings encoder layer : nnModule)
    (base dlr wd dc : R) :
  getattr model "model" = Return backbone ->
  getattr backbone "embeddings" = Return embeddings ->
  getattr backbone "encoder" = Return encoder ->
  getattr encoder "layer" = Return layer ->
  let visited := rev (module_list layer) ++ [embeddings] in
  layers_of model = Return visited /\
  exists groups,
    get_optimizer_grouped_parameters model base dlr wd dc = Return groups /\
    layer_part groups =
      flat_map (fun kl => layer_groups wd (rate_at base dc (fst kl)) (snd kl))
               (enumerate visited) /\
    rate_at base dc 0 = base /\
    (forall k, rate_at base dc (S k) = rate_at base dc k * dc) /\
    (0 <= base -> 0 <= dc <= 1 -> non_increasing (rates_of (layer_part groups))).
Proof.
  intros Hb He Hc Hl visited. split.
  - unfold layers_of. rewrite Hb. cbn [bind]. rewrite He. cbn [bind].
    rewrite Hc. cbn [bind]. rewrite Hl. reflexivity.
  - destruct (grouped_parameters_layout _ _ _ _ _ base dlr wd dc Hb He Hc Hl)
      as (g0 & g1 & g2 & Hg & _).
    eexists. split; [exact Hg |]. fold visited. cbn [layer_part skipn app].
    assert (E0 : rate_at base dc 0 = base) by (unfold rate_at; simpl; ring).
    split; [| split; [exact E0 | split]].
    + rewrite <- E0 at 1. apply for_layers_from.
    + intros k. unfold rate_at. simpl. ring.
    + intros Hbase Hdc. now apply for_layers_non_increasing.
Qed.

Lemma layerwise_rates_decay_witness :
  exists groups,
    get_optimizer_grouped_parameters sample_model 2e-5 1e-3 0.01 0.9 = Return groups /\
    non_increasing (rates_of (layer_part groups)).
Proof.
  destruct (layerwise_rates_decay sample_model sample_backbone sample_embeddings
              sample_encoder (Mod [] [("0", sample_layer 10); ("1", sample_layer 20)])
              2e-5 1e-3 0.01 0.9 eq_refl eq_refl eq_refl eq_refl)
    as (_ & groups & Hg & _ & _ & _ & Hmono).
  exists groups. split; [exact Hg |]. apply Hmono; lra.
Defined.

(** ** The groups as a partition of the parameters *)

Section Partition.

Lemma nnModule_induction (P : nnModule -> Prop) :
  (forall ps cs, Forall (fun kc => P (snd kc)) cs -> P (Mod ps cs)) ->
  forall m, P m.
Proof.
  intros H. fix IH 1. intros [ps cs]. apply H.
  induction cs as [| [k c] cs IHcs]; constructor; [apply IH | exact IHcs].
Qed.

Lemma walk_unfold (prefix : string) (m : nnModule) :
  walk_parameters prefix m = prefixed prefix m ++ walk_children prefix (children_of m).
Proof. now destruct m. Qed.

(** *** Names and identities along the walk *)

Lemma append_assoc (a b c : string) : ((a ++ b) ++ c = a ++ (b ++ c))%string.
Proof. induction a as [| x a IH]; simpl; congruence. Qed.

Lemma join_extends (prefix k : string) : exists s, join prefix k = (prefix ++ s)%string.
Proof.
  unfold join. destruct (String.eqb_spec prefix "") as [-> | _].
  - now exists k.
  - now exists ("." ++ k)%string.
Qed.

(** Every name of the walk starts with the prefix of the walk. *)
Lemma walk_names (m : nnModule) :
  forall prefix n p, In (n, p) (walk_parameters prefix m) ->
                     exists rest, n = (prefix ++ rest)%string.
Proof.
  induction m as [ps cs IH] using nnModule_induction. intros prefix n p Hin.
  rewrite walk_unfold in Hin. apply in_app_or in Hin as [Hin | Hin].
  - unfold prefixed in Hin. apply in_map_iff in Hin as ([k q] & [= <- _] & _).
    apply join_extends.
  - unfold walk_children in Hin. apply in_flat_map in Hin as ([k c] & Hkc & Hin).
    rewrite Forall_forall in IH.
    destruct (IH _ Hkc _ _ _ Hin) as (rest & ->). cbn [fst].
    destruct (join_extends prefix k) as (s & ->).
    exists (s ++ rest)%string. apply append_assoc.
Qed.

(** The identities of the walk do not depend on the prefix. *)
Lemma walk_ids (m : nnModule) :
  forall prefix prefix',
    map snd (walk_parameters prefix m) = map snd (walk_parameters prefix' m).
Proof.
  induction m as [ps cs IH] using nnModule_induction. intros prefix prefix'.
  rewrite !walk_unfold, !map_app. f_equal.
  - unfold prefixed. now rewrite !map_map.
  - unfold walk_children. cbn [children_of].
    induction IH as [| [k c] cs Hc _ IHcs]; [reflexivity |].
    cbn [flat_map]. rewrite !map_app. f_equal; [apply Hc | apply IHcs].
Qed.

Lemma prefix_append (pat rest : string) : String.prefix pat (pat ++ rest) = true.
Proof.
  induction pat as [| a pat IH]; simpl; [now destruct rest |].
  destruct (ascii_dec a a); [exact IH | contradiction].
Qed.

Lemma contains_prefix (pat s : string) : String.prefix pat s = true -> contains pat s = true.
Proof. destruct s; simpl; intros ->; reflexivity. Qed.

(** *** The memo of [named_parameters] *)

Lemma remove_duplicate_NoDup (l : list (string * Param)) :
  forall memo,
    NoDup (map snd l) -> (forall p, In p memo -> ~ In p (map snd l)) ->
    remove_duplicate memo l = l.
Proof.
  induction l as [| [n p] l IH]; intros memo Hnd Hmemo; [reflexivity |].
  cbn [remove_duplicate]. cbn [map snd] in Hnd, Hmemo.
  destruct (existsb (Nat.eqb p) memo) eqn:E.
  - apply existsb_exists in E as (q & Hq & Heq). apply Nat.eqb_eq in Heq. subst q.
    exfalso. apply (Hmemo p Hq). now left.
  - f_equal. inversion Hnd as [| ? ? Hp Hl]; subst. apply IH; [assumption |].
    intros q [<- | Hq]; [assumption |]. intros Hin. apply (Hmemo q Hq). now right.
Qed.

Lemma named_parameters_NoDup (m : nnModule) :
  NoDup (map snd (walk_parameters "" m)) ->
  named_parameters m = walk_parameters "" m.
Proof. intros H. apply remove_duplicate_NoDup; [assumption | intros p []]. Qed.

(** *** Selections *)

Lemma select_app (f : string -> bool) (l l' : list (string * Param)) :
  select f (l ++ l') = select f l ++ select f l'.
Proof. unfold select. now rewrite filter_app, map_app. Qed.

Lemma select_Permutation (f : string -> bool) (l l' : list (string * Param)) :
  Permutation l l' -> Permutation (select f l) (select f l').
Proof.
  unfold select. induction 1 as [| [n p] l l' _ IH | [n p] [n' p'] l | l l' l'' _ IH _ IH'];
    cbn [filter fst].
  - constructor.
  - destruct (f n); cbn [map]; [now constructor | exact IH].
  - destruct (f n), (f n'); cbn [map]; try reflexivity. constructor.
  - now transitivity (map snd (filter (fun np => f (fst np)) l')).
Qed.

(** Two conditions that exclude each other on the names of [l] share its
    parameters out. *)
Lemma select_complement (f g : string -> bool) (l : list (string * Param)) :
  Forall (fun np => g (fst np) = negb (f (fst np))) l ->
  Permutation (select f l ++ select g l) (map snd l).
Proof.
  unfold select. induction 1 as [| [n p] l Hn _ IH]; [constructor |].
  cbn [filter fst map] in *. rewrite Hn. destruct (f n); cbn [negb map app].
  - now constructor.
  - symmetry. apply Permutation_cons_app. now symmetry.
Qed.

Lemma select_none (f : string -> bool) (l : list (string * Param)) :
  Forall (fun np => f (fst np) = false) l -> select f l = [].
Proof.
  unfold select. induction 1 as [| [n p] l Hn _ IH]; [reflexivity |].
  cbn [filter fst] in *. now rewrite Hn.
Qed.

Lemma select_filter (f : string -> bool) (l : list (string * Param)) :
  map snd (filter (fun np => f (fst np)) l) = select f l.
Proof. reflexivity. Qed.

Lemma decays_complement (l : list (string * Param)) :
  Permutation (select decays l ++ select (any_in no_decay) l) (map snd l).
Proof.
  apply select_complement, Forall_forall. intros np _. unfold decays.
  now rewrite negb_involutive.
Qed.

(** *** Children *)

Lemma getattr_lookup (m : nnModule) (name : string) (c : nnModule) :
  getattr m name = Return c -> lookup_child (children_of m) name = Some c.
Proof.
  unfold getattr. destruct (lookup_child (children_of m) name); [| discriminate].
  now intros [= ->].
Qed.

Lemma lookup_child_Permutation (cs : list (string * nnModule)) (name : string)
    (c : nnModule) :
  lookup_child cs name = Some c ->
  Permutation cs ((name, c) :: remove_child cs name).
Proof.
  induction cs as [| [k c'] cs IH]; cbn [lookup_child remove_child]; [discriminate |].
  destruct (String.eqb_spec name k) as [-> | Hne].
  - intros [= ->]. reflexivity.
  - intros H. transitivity ((k, c') :: (name, c) :: remove_child cs name).
    + constructor. now apply IH.
    + apply perm_swap.
Qed.

Lemma lookup_remove_other (cs : list (string * nnModule)) (k k' : string) :
  k <> k' -> lookup_child (remove_child cs k) k' = lookup_child cs k'.
Proof.
  intros Hne. induction cs as [| [k0 c0] cs IH]; [reflexivity |].
  cbn [lookup_child remove_child].
  destruct (String.eqb_spec k k0) as [-> | H0].
  - destruct (String.eqb_spec k' k0) as [-> | _]; [contradiction | reflexivity].
  - cbn [lookup_child]. now rewrite IH.
Qed.

(** The walk over the children meets the child found under [name] and
    the other children. *)
Lemma walk_children_child (prefix : string) (cs : list (string * nnModule))
    (name : string) (c : nnModule) :
  lookup_child cs name = Some c ->
  Permutation (walk_children prefix cs)
              (walk_parameters (join prefix name) c ++
               walk_children prefix (remove_child cs name)).
Proof.
  intros H.
  exact (Permutation_flat_map _ (lookup_child_Permutation _ _ _ H)).
Qed.

(** *** Setting a part of a list aside *)

Lemma split_head {A : Type} (h x a b : list A) :
  Permutation x (a ++ b) -> Permutation (h ++ x) ((h ++ a) ++ b).
Proof. intros H. rewrite <- app_assoc. now apply Permutation_app_head. Qed.

Lemma split_tail {A : Type} (x r a b : list A) :
  Permutation x (a ++ b) -> Permutation (x ++ r) ((a ++ r) ++ b).
Proof.
  intros H. transitivity ((a ++ b) ++ r); [now apply Permutation_app_tail |].
  rewrite <- !app_assoc. apply Permutation_app_head, Permutation_app_comm.
Qed.

Lemma split_covered {A : Type} (e x a b : list A) :
  Permutation x (a ++ b) -> Permutation (e ++ x) (a ++ (e ++ b)).
Proof.
  intros H. transitivity (e ++ a ++ b); [now apply Permutation_app_head |].
  apply Permutation_app_swap_app.
Qed.

(** *** The model, between the layers and the rest *)

Section Layout.

Variables model backbone embeddings encoder layer : nnModule.
Hypothesis Hbackbone : getattr model "model" = Return backbone.
Hypothesis Hembeddings : getattr backbone "embeddings" = Return embeddings.
Hypothesis Hencoder : getattr backbone "encoder" = Return encoder.
Hypothesis Hlayer : getattr encoder "layer" = Return layer.

Lemma walk_decomposition :
  Permutation (walk_parameters "" model)
              (outside_layers model backbone encoder layer ++
               covered_by_layers embeddings layer).
Proof.
  apply getattr_lookup in Hbackbone, Hembeddings, Hencoder, Hlayer.
  unfold outside_layers, covered_by_layers.
  rewrite (walk_unfold "" model). apply split_head.
  etransitivity; [exact (walk_children_child "" _ _ _ Hbackbone) |].
  change (join "" "model") with "model". apply split_tail.
  rewrite (walk_unfold "model" backbone). apply split_head.
  etransitivity; [exact (walk_children_child "model" _ _ _ Hembeddings) |].
  change (join "model" "embeddings") with "model.embeddings". apply split_covered.
  assert (Henc' : lookup_child (remove_child (children_of backbone) "embeddings")
                               "encoder" = Some encoder)
    by (rewrite lookup_remove_other; [assumption | discriminate]).
  etransitivity; [exact (walk_children_child "model" _ _ _ Henc') |].
  change (join "model" "encoder") with "model.encoder". apply split_tail.
  rewrite (walk_unfold "model.encoder" encoder). apply split_head.
  etransitivity; [exact (walk_children_child "model.encoder" _ _ _ Hlayer) |].
  change (join "model.encoder" "layer") with "model.encoder.layer". apply split_tail.
  rewrite (walk_unfold "model.encoder.layer" layer). reflexivity.
Qed.

(** Every name under the embedding block or under a layer matches the
    pattern that leaves it to the loop. *)
Lemma covered_names :
  Forall (fun np => contains "model" (fst np) = true /\
                    (contains "model.embeddings" (fst np) = true \/
                     contains "model.encoder.layer" (fst np) = true))
         (covered_by_layers embeddings layer).
Proof.
  apply Forall_forall. intros [n p] Hin. cbn [fst].
  apply in_app_or in Hin as [Hin | Hin].
  - apply walk_names in Hin as (rest & ->). split; [| left].
    + apply contains_prefix.
      exact (prefix_append "model" (".embeddings" ++ rest)).
    + apply contains_prefix, prefix_append.
  - unfold walk_children in Hin. apply in_flat_map in Hin as ([k c] & _ & Hin).
    apply walk_names in Hin as (rest & ->). cbn [fst].
    change (join "model.encoder.layer" k)
      with ("model.encoder.layer" ++ ("." ++ k))%string.
    rewrite append_assoc. split; [| right].
    + apply contains_prefix.
      exact (prefix_append "model" (".encoder.layer" ++ (("." ++ k) ++ rest))).
    + apply contains_prefix, prefix_append.
Qed.

Lemma covered_not_selected :
  select is_head (covered_by_layers embeddings layer) = [] /\
  select is_extra (covered_by_layers embeddings layer) = [].
Proof.
  split; apply select_none; (eapply Forall_impl; [| exact covered_names]);
    intros [n p]; cbn [fst]; intros [Hm Hp].
  - unfold is_head. now rewrite Hm.
  - unfold is_extra. rewrite Hm. destruct Hp as [-> | ->]; cbn [negb andb];
      [reflexivity | apply andb_false_r].
Qed.

(** The identities that the loop reaches, layer by layer. *)
Lemma covered_ids :
  map snd (covered_by_layers embeddings layer) =
  flat_map (fun l => map snd (walk_parameters "" l)) (embeddings :: module_list layer).
Proof.
  unfold covered_by_layers. rewrite map_app. cbn [flat_map]. f_equal; [apply walk_ids |].
  unfold walk_children, module_list.
  induction (children_of layer) as [| [k c] cs IH]; [reflexivity |].
  cbn [flat_map map snd fst]. rewrite map_app, IH. f_equal. apply walk_ids.
Qed.

End Layout.

Lemma NoDup_flat_map_each {A B : Type} (f : A -> list B) (l : list A) :
  NoDup (flat_map f l) -> Forall (fun x => NoDup (f x)) l.
Proof.
  induction l as [| x l IH]; cbn [flat_map]; intros H; constructor.
  - exact (NoDup_app_remove_r _ _ H).
  - apply IH. exact (NoDup_app_remove_l _ _ H).
Qed.

(** The groups of the loop hold the parameters of the layers visited. *)
Lemma for_layers_params (wd dc : R) (layers : list nnModule) :
  forall rate,
    Permutation (all_params (for_layers wd dc layers [] rate))
                (flat_map (fun l => map snd (named_parameters l)) layers).
Proof.
  induction layers as [| l rest IH]; intros rate; [constructor |].
  cbn [for_layers app flat_map]. rewrite for_layers_app.
  unfold all_params. rewrite flat_map_app. apply Permutation_app; [| apply IH].
  cbn [layer_groups flat_map params]. rewrite app_nil_r. apply decays_complement.
Qed.

Lemma flat_map_ext_Forall {A B : Type} (f g : A -> list B) (l : list A) :
  Forall (fun x => f x = g x) l -> flat_map f l = flat_map g l.
Proof. induction 1 as [| x l Hx _ IH]; cbn [flat_map]; congruence. Qed.

(** The head group and the two groups of the other backbone parameters
    hold what the loop does not reach. *)
Lemma head_and_extra (W O C : list (string * Param)) :
  Permutation W (O ++ C) ->
  Forall (fun np => pattern_free (fst np) = true) O ->
  select is_head C = [] -> select is_extra C = [] ->
  Permutation (select is_head W ++
               select decays (filter (fun np => is_extra (fst np)) W) ++
               select (any_in no_decay) (filter (fun np => is_extra (fst np)) W))
              (map snd O).
Proof.
  intros HW Hfree HhC HeC.
  transitivity (select is_head O ++ select is_extra O).
  - apply Permutation_app.
    + rewrite (select_Permutation is_head _ _ HW), select_app, HhC. now rewrite app_nil_r.
    + rewrite decays_complement, select_filter.
      rewrite (select_Permutation is_extra _ _ HW), select_app, HeC.
      now rewrite app_nil_r.
  - apply select_complement. eapply Forall_impl; [| exact Hfree].
    intros [n p]. cbn [fst]. unfold pattern_free, is_extra, is_head.
    intros H. apply andb_prop in H as [-> ->].
    now rewrite negb_involutive, !andb_true_r.
Qed.

(** On a model laid out as the function reads it, without a parameter
    registered twice and without a pattern in a name outside the layers,
    the groups hold every parameter once. *)
Lemma grouped_parameters_exact (model backbone embeddings encoder layer : nnModule)
    (base dlr wd dc : R) :
  getattr model "model" = Return backbone ->
  getattr backbone "embeddings" = Return embeddings ->
  getattr backbone "encoder" = Return encoder ->
  getattr encoder "layer" = Return layer ->
  NoDup (map snd (walk_parameters "" model)) ->
  Forall (fun np => pattern_free (fst np) = true)
         (outside_layers model backbone encoder layer) ->
  exists groups,
    get_optimizer_grouped_parameters model base dlr wd dc = Return groups /\
    Permutation (all_params groups) (map snd (named_parameters model)).
Proof.
  intros Hb He Hc Hl Hnd Hfree.
  destruct (grouped_parameters_layout _ _ _ _ _ base dlr wd dc Hb He Hc Hl)
    as (g0 & g1 & g2 & Hg & E0 & E1 & E2).
  eexists. split; [exact Hg |].
  unfold all_params. rewrite flat_map_app.
  change (flat_map params [g0; g1; g2])
    with (params g0 ++ params g1 ++ params g2 ++ []).
  rewrite E0, E1, E2. cbn [params]. rewrite app_nil_r.
  rewrite (named_parameters_NoDup model Hnd).
  pose proof (walk_decomposition _ _ _ _ _ Hb He Hc Hl) as HW.
  destruct (covered_not_selected embeddings layer) as [HhC HeC].
  pose proof (covered_ids embeddings layer) as Hids.
  set (W := walk_parameters "" model) in *.
  set (O := outside_layers model backbone encoder layer) in *.
  set (C := covered_by_layers embeddings layer) in *.
  assert (HWids : Permutation (map snd W) (map snd O ++ map snd C))
    by (rewrite <- map_app; now apply Permutation_map).
  assert (HndC : NoDup (map snd C)).
  { apply (Permutation_NoDup HWids) in Hnd. exact (NoDup_app_remove_l _ _ Hnd). }
  rewrite HWids.
  apply Permutation_app; [now apply (head_and_extra W O C) |].
  etransitivity; [exact (for_layers_params _ _ _ _) |].
  rewrite Hids in HndC |- *.
  rewrite (flat_map_ext_Forall (fun l => map snd (named_parameters l))
                               (fun l => map snd (walk_parameters "" l))).
  - change (embeddings :: module_list layer) with ([embeddings] ++ module_list layer).
    apply Permutation_flat_map.
    rewrite Permutation_app_comm. apply Permutation_app_head.
    symmetry. apply Permutation_rev.
  - apply NoDup_flat_map_each in HndC. rewrite Forall_forall in *.
    intros l Hin. rewrite named_parameters_NoDup; [reflexivity |].
    apply HndC. apply in_app_or in Hin as [Hin | [<- | []]].
    + right. now apply in_rev.
    + now left.
Qed.

End Partition.

(** C3. Every parameter should be in exactly one group, and here the code
    misses: at the model with a projection next to the embedding block, the
    names of the projection contain [model.embeddings], so the step for the
    "extra params in encoder" leaves them to the loop over the layers, the
    embedding block does not hold them, and no group gets them. *)
Lemma grouped_parameters_partition_counterexample :
  exists groups,
    get_optimizer_grouped_parameters projected_model 2e-5 1e-3 0.01 0.9 = Return groups /\
    In 30%nat (map snd (named_parameters projected_model)) /\
    ~ In 30%nat (all_params groups) /\
    ~ Permutation (all_params groups) (map snd (named_parameters projected_model)).
Proof.
  eexists. split; [reflexivity |].
  assert (Hin : In 30%nat (map snd (named_parameters projected_model)))
    by (lazy; tauto).
  split; [exact Hin |].
  match goal with
  | |- ?X /\ _ => assert (Hout : X) by (lazy; intuition discriminate)
  end.
  split; [exact Hout |].
  intros HP. apply Hout. apply (Permutation_in _ (Permutation_sym HP)). exact Hin.
Qed.

(** X22. Where the groups are right: on a model that has the attributes
    the function reads, in which no parameter object is registered under two
    names and in which no parameter outside the embedding block and the
    encoder layers has a name containing [model.embeddings] or
    [model.encoder.layer], the groups hold every parameter of the model
    exactly once. *)
Theorem grouped_parameters_partition (model backbone embeddings encoder layer : nnModule)
    (base dlr wd dc : R) :
  getattr model "model" = Return backbone ->
  getattr backbone "embeddings" = Return embeddings ->
  getattr backbone "encoder" = Return encoder ->
  getattr encoder "layer" = Return layer ->
  NoDup (map snd (walk_parameters "" model)) ->
  Forall (fun np => pattern_free (fst np) = true)
         (outside_layers model backbone encoder layer) ->
  exists groups,
    get_optimizer_grouped_parameters model base dlr wd dc = Return groups /\
    Permutation (all_params groups) (map snd (named_parameters model)) /\
    NoDup (all_params groups).
Proof.
  intros Hb He Hc Hl Hnd Hfree.
  destruct (grouped_parameters_exact _ _ _ _ _ base dlr wd dc Hb He Hc Hl Hnd Hfree)
    as (groups & Hg & HP).
  exists groups. split; [exact Hg |]. split; [exact HP |].
  apply (Permutation_NoDup (Permutation_sym HP)).
  now rewrite (named_parameters_NoDup model Hnd).
Qed.

Lemma grouped_parameters_partition_witness :
  exists groups,
    get_optimizer_grouped_parameters sample_model 2e-5 1e-3 0.01 0.9 = Return groups /\
    Permutation (all_params groups) (map snd (named_parameters sample_model)) /\
    NoDup (all_params groups).
Proof.
  apply (grouped_parameters_partition sample_model sample_backbone sample_embeddings
           sample_encoder (Mod [] [("0", sample_layer 10); ("1", sample_layer 20)]));
    try reflexivity.
  - lazy. repeat (constructor; [simpl; intuition discriminate |]). constructor.
  - lazy. repeat constructor.
Defined.

(** * Further properties *)

(** ** Evaluation metric: symmetry, zero, wide and degenerate inputs *)

Section MetricsMore.

Lemma broadcast_dim_comm (m n : nat) : np.broadcast_dim m n = np.broadcast_dim n m.
Proof.
  unfold np.broadcast_dim.
  destruct (Nat.eqb_spec m n) as [-> | Hmn].
  - now rewrite Nat.eqb_refl.
  - destruct (Nat.eqb_spec n m) as [-> | _]; [contradiction |].
    destruct (Nat.eqb_spec m 1), (Nat.eqb_spec n 1); congruence.
Qed.

(** The squared differences do not depend on the order of the operands. *)
Lemma square_subtract_comm (a b : np.ndarray) :
  (d <- np.subtract a b ;; Return (np.square d)) =
  (d <- np.subtract b a ;; Return (np.square d)).
Proof.
  unfold np.subtract, np.elementwise.
  rewrite (broadcast_dim_comm (np.nrows b)), (broadcast_dim_comm (np.ncols b)).
  destruct (np.broadcast_dim (np.nrows a) (np.nrows b)) as [n |]; [| reflexivity].
  destruct (np.broadcast_dim (np.ncols a) (np.ncols b)) as [m |]; [| reflexivity].
  cbn [bind]. unfold np.square. cbn [np.nrows np.ncols np.rows]. do 2 f_equal.
  rewrite !map_map. apply map_ext. intros i.
  rewrite !map_map. apply map_ext. intros j. ring.
Qed.

Lemma colwise_rmse_of_square (p : EvalPrediction) :
  colwise_rmse_of p =
  (s <- (d <- np.subtract (label_ids p) (predictions p) ;; Return (np.square d)) ;;
   Return (np.sqrt (np.mean_axis0 s))).
Proof.
  unfold colwise_rmse_of. now destruct (np.subtract (label_ids p) (predictions p)).
Qed.

Lemma getitem_map_seq (f : nat -> num) (m k : nat) :
  (k < m)%nat -> np.getitem (map f (seq 0 m)) k = Return (f k).
Proof.
  intros Hk. unfold np.getitem.
  rewrite nth_error_map, nth_error_nth' with (d := 0%nat) by now rewrite length_seq.
  now rewrite seq_nth.
Qed.

Lemma rmse_spec_nonneg (l p : np.ndarray) (j : nat) : 0 <= rmse_spec l p j.
Proof. apply sqrt_pos. Qed.

Lemma Rsum_zero_inv {A : Type} (f : A -> R) (l : list A) :
  (forall x, 0 <= f x) -> Rsum (map f l) = 0 -> forall x, In x l -> f x = 0.
Proof.
  intros Hf. induction l as [| y l IH]; intros Hs x Hx; [destruct Hx |].
  change (f y + Rsum (map f l) = 0) in Hs.
  pose proof (Hf y). pose proof (Rsum_nonneg f l Hf).
  destruct Hx as [<- | Hx]; [lra |]. apply IH; [lra | assumption].
Qed.

(** A column has no error exactly when it is predicted entry by entry. *)
Lemma rmse_spec_zero_iff (l p : np.ndarray) (j : nat) :
  (1 <= np.nrows l)%nat ->
  rmse_spec l p j = 0 <->
  (forall i, (i < np.nrows l)%nat -> entry p i j = entry l i j).
Proof.
  intros HN. unfold rmse_spec.
  assert (Hn : 0 < INR (np.nrows l)) by (apply lt_0_INR; lia).
  set (f := fun i => (entry l i j - entry p i j) ^ 2).
  assert (Hf : forall i, 0 <= f i) by (intros i; apply pow2_ge_0).
  split.
  - intros H i Hi. apply sqrt_eq_0 in H.
    + assert (Hs : Rsum (map f (seq 0 (np.nrows l))) = 0).
      { apply Rmult_eq_reg_r with (/ INR (np.nrows l)).
        - rewrite Rmult_0_l. exact H.
        - apply Rinv_neq_0_compat. lra. }
      assert (Hi' : In i (seq 0 (np.nrows l))) by (apply in_seq; lia).
      pose proof (Rsum_zero_inv f _ Hf Hs i Hi') as Hz. unfold f in Hz.
      assert (E : entry l i j - entry p i j = 0) by nra. lra.
    + apply Rmult_le_pos; [now apply Rsum_nonneg | left; now apply Rinv_0_lt_compat].
  - intros H. rewrite Rsum_zero.
    + unfold Rdiv. rewrite Rmult_0_l. apply sqrt_0.
    + intros i Hi. apply in_seq in Hi. unfold f. rewrite H by lia. ring.
Qed.

Lemma metrics_of_mcrmse (r : nat -> R) :
  dict_get (metrics_of r) "mcrmse"
  = Some (Fin ((r 0%nat + r 1%nat + r 2%nat + r 3%nat + r 4%nat + r 5%nat) / 6)).
Proof. reflexivity. Qed.

End MetricsMore.

(** X1. Exchanging predictions and labels changes nothing: the result, a
    dictionary or an error, is the same for every input. *)
Theorem compute_metrics_symmetric (p : EvalPrediction) :
  compute_metrics (mk_EvalPrediction (label_ids p) (predictions p)) = compute_metrics p.
Proof.
  unfold compute_metrics. rewrite !colwise_rmse_of_square.
  cbn [predictions label_ids]. now rewrite square_subtract_comm.
Qed.

(** X2. On inputs of shape (N, 6) with N >= 1 the aggregate [mcrmse] is
    zero exactly when every prediction equals its label. *)
Theorem compute_metrics_zero_iff_exact (p : EvalPrediction) (N : nat) :
  has_shape (predictions p) N 6 -> has_shape (label_ids p) N 6 -> (1 <= N)%nat ->
  exists d,
    compute_metrics p = Return d /\
    (dict_get d "mcrmse" = Some (Fin 0) <->
     forall i j, (i < N)%nat -> (j < 6)%nat ->
                 entry (predictions p) i j = entry (label_ids p) i j).
Proof.
  intros HP HL HN.
  assert (Hs : np.same_shape (label_ids p) (predictions p))
    by exact (has_shape_same _ _ _ _ HL HP).
  destruct HL as (_ & Hrows & Hcols).
  rewrite (compute_metrics_spec p Hs Hcols) by lia.
  eexists. split; [reflexivity |]. rewrite metrics_of_mcrmse.
  set (r := rmse_spec (label_ids p) (predictions p)).
  assert (Hr : forall j, 0 <= r j) by (intros j; apply rmse_spec_nonneg).
  assert (Hz : forall j, r j = 0 <->
                 forall i, (i < N)%nat -> entry (predictions p) i j = entry (label_ids p) i j).
  { intros j. unfold r. rewrite rmse_spec_zero_iff by lia. now rewrite Hrows. }
  split.
  - intros [= H] i j Hi Hj.
    pose proof (Hr 0%nat). pose proof (Hr 1%nat). pose proof (Hr 2%nat).
    pose proof (Hr 3%nat). pose proof (Hr 4%nat). pose proof (Hr 5%nat).
    apply (proj1 (Hz j)); [| assumption].
    destruct j as [| [| [| [| [| [| j]]]]]]; [lra | lra | lra | lra | lra | lra | lia].
  - intros H. do 2 f_equal.
    assert (E : forall j, (j < 6)%nat -> r j = 0)
      by (intros j Hj; apply (proj2 (Hz j)); intros i Hi; now apply H).
    rewrite !E by lia. lra.
Qed.

Lemma compute_metrics_zero_iff_exact_witness :
  exists d,
    compute_metrics sample_eval = Return d /\
    (dict_get d "mcrmse" = Some (Fin 0) <->
     forall i j, (i < 2)%nat -> (j < 6)%nat ->
                 entry (predictions sample_eval) i j = entry (label_ids sample_eval) i j).
Proof.
  apply (compute_metrics_zero_iff_exact sample_eval 2
           sample_predictions_shape sample_labels_shape). lia.
Defined.

(** X3. With more than six columns the six named entries are those of
    the first six columns, and the aggregate is the mean over all the
    columns, the unnamed ones included. *)
Theorem compute_metrics_wide (p : EvalPrediction) :
  np.same_shape (label_ids p) (predictions p) ->
  (6 <= np.ncols (label_ids p))%nat -> (1 <= np.nrows (label_ids p))%nat ->
  let r := rmse_spec (label_ids p) (predictions p) in
  compute_metrics p =
    Return [("mcrmse", Fin (Rsum (map r (seq 0 (np.ncols (label_ids p))))
                            / INR (np.ncols (label_ids p))));
            ("cohesion_rmse", Fin (r 0%nat));
            ("syntax_rmse", Fin (r 1%nat));
            ("vocabulary_rmse", Fin (r 2%nat));
            ("phraseology_rmse", Fin (r 3%nat));
            ("grammar_rmse", Fin (r 4%nat));
            ("conventions_rmse", Fin (r 5%nat))].
Proof.
  intros Hs HM HN r. unfold compute_metrics.
  rewrite (colwise_rmse_spec p Hs HN). fold r. cbn [bind].
  rewrite !(getitem_map_seq (fun j => Fin (r j))) by lia. cbn [bind].
  rewrite mean_num_fin, length_seq; [reflexivity |].
  destruct (np.ncols (label_ids p)); [lia | discriminate].
Qed.

Lemma compute_metrics_wide_witness :
  exists d,
    compute_metrics wide_eval = Return d /\
    dict_get d "mcrmse"
      = Some (Fin (Rsum (map (rmse_spec wide_labels wide_predictions) (seq 0 7)) / INR 7)).
Proof.
  eexists. split.
  - apply (compute_metrics_wide wide_eval); [split; reflexivity | simpl; lia | simpl; lia].
  - reflexivity.
Defined.

(** X4. Without a row the six columns have no mean: the dictionary is
    returned, and all its seven values are [nan]. *)
Theorem compute_metrics_no_rows (p : EvalPrediction) :
  np.same_shape (label_ids p) (predictions p) ->
  np.nrows (label_ids p) = 0%nat -> np.ncols (label_ids p) = 6%nat ->
  compute_metrics p = Return (map (fun name => (name, NaN)) metric_names).
Proof.
  intros [Hn Hm] HN HM. unfold compute_metrics, colwise_rmse_of, np.subtract, np.elementwise.
  rewrite <- Hn, <- Hm, HN, HM. reflexivity.
Qed.

Lemma compute_metrics_no_rows_witness :
  compute_metrics no_rows_eval = Return (map (fun name => (name, NaN)) metric_names).
Proof.
  apply (compute_metrics_no_rows no_rows_eval); [split; reflexivity | reflexivity | reflexivity].
Defined.

(** X5. Predictions and labels whose numbers of rows, or of columns,
    differ without one of them being 1 cannot be subtracted: the function
    ends in the error of the subtraction, not in a result. *)
Theorem compute_metrics_shape_mismatch (p : EvalPrediction) :
  (np.nrows (label_ids p) <> np.nrows (predictions p) /\
   np.nrows (label_ids p) <> 1%nat /\ np.nrows (predictions p) <> 1%nat) \/
  (np.ncols (label_ids p) <> np.ncols (predictions p) /\
   np.ncols (label_ids p) <> 1%nat /\ np.ncols (predictions p) <> 1%nat) ->
  compute_metrics p = Raise (ValueError "operands could not be broadcast together").
Proof.
  assert (Hnone : forall m n, m <> n -> m <> 1%nat -> n <> 1%nat ->
                              np.broadcast_dim m n = None).
  { intros m n H H1 H2. unfold np.broadcast_dim.
    destruct (Nat.eqb_spec m n); [contradiction |].
    destruct (Nat.eqb_spec m 1); [contradiction |].
    destruct (Nat.eqb_spec n 1); [contradiction | reflexivity]. }
  intros H. unfold compute_metrics, colwise_rmse_of, np.subtract, np.elementwise.
  destruct H as [(H & H1 & H2) | (H & H1 & H2)]; rewrite (Hnone _ _ H H1 H2).
  - reflexivity.
  - now destruct (np.broadcast_dim _ _).
Qed.

Lemma compute_metrics_shape_mismatch_witness :
  compute_metrics mismatched_eval
  = Raise (ValueError "operands could not be broadcast together").
Proof.
  apply compute_metrics_shape_mismatch. left. cbn. repeat split; discriminate.
Defined.

(** ** Loss functions: bounds, reductions, dispatch *)

Section LossMore.

Lemma rmse_elementwise_fin0 (e : R) (p t : torch.Tensor) :
  0 <= e ->
  rmse_elementwise e p t =
    map (fun xy => Fin (sqrt ((fst xy - snd xy) ^ 2 + e))) (combine p t).
Proof.
  intros He. unfold rmse_elementwise. apply map_ext. intros [x y].
  apply real_sqrt_nonneg. pose proof (pow2_ge_0 (fst (x, y) - snd (x, y))). lra.
Qed.

Lemma Rsum_lower {A : Type} (f : A -> R) (c : R) (l : list A) :
  (forall x, c <= f x) -> INR (length l) * c <= Rsum (map f l).
Proof.
  intros Hf. induction l as [| x l IH]; [simpl; lra |].
  change (INR (S (length l)) * c <= f x + Rsum (map f l)).
  rewrite S_INR. specialize (Hf x). lra.
Qed.

Lemma root_entry_lower (e : R) (xy : R * R) :
  0 <= e -> sqrt e <= sqrt ((fst xy - snd xy) ^ 2 + e).
Proof.
  intros He. apply sqrt_le_1_alt. pose proof (pow2_ge_0 (fst xy - snd xy)). lra.
Qed.

Lemma combine_length_same {A B : Type} (p : list A) (t : list B) :
  length p = length t -> length (combine p t) = length p.
Proof. intros H. rewrite length_combine, <- H. apply Nat.min_id. Qed.

Lemma rmse_elementwise_comm (e : R) (p t : torch.Tensor) :
  rmse_elementwise e p t = rmse_elementwise e t p.
Proof.
  unfold rmse_elementwise. revert t.
  induction p as [| x p IH]; intros [| y t]; try reflexivity.
  cbn [combine map fst snd]. rewrite IH. do 2 f_equal. ring.
Qed.

End LossMore.

(** X6. With a non-negative epsilon and at least one entry, the rmse loss
    is never below the root of epsilon, whichever of the three reductions is
    configured: it cannot reach zero. *)
Theorem rmse_loss_lower_bound (s : strategy) (e : R) (p t : torch.Tensor) :
  0 <= e -> length p = length t -> p <> [] ->
  loss_ge (sqrt e) (forward (mk_RMSELoss (strategy_name s) e) p t).
Proof.
  intros He Hlen Hp. rewrite forward_strategy, (rmse_elementwise_fin0 _ _ _ He).
  set (f := fun xy : R * R => sqrt ((fst xy - snd xy) ^ 2 + e)).
  assert (Hf : forall xy, sqrt e <= f xy) by (intros xy; now apply root_entry_lower).
  pose proof (Rsum_lower f (sqrt e) (combine p t) Hf) as Hsum.
  assert (Hn : 1 <= INR (length (combine p t))).
  { rewrite combine_length_same by assumption.
    destruct p; [congruence |]. rewrite length_cons, S_INR.
    pose proof (pos_INR (length p)). lra. }
  pose proof (sqrt_pos e) as Hroot.
  destruct s; cbn [reduce loss_ge].
  - rewrite (mean_num_fin f) by (apply combine_nonempty; assumption). cbn [num_ge].
    apply Rmult_le_reg_r with (INR (length (combine p t))); [lra |].
    unfold Rdiv. rewrite Rmult_assoc, Rinv_l by lra. lra.
  - rewrite (sum_num_fin f). cbn [num_ge]. nra.
  - apply Forall_map, Forall_forall. intros xy _. apply Hf.
Qed.

Lemma rmse_loss_lower_bound_witness :
  loss_ge (sqrt 1e-9) (forward (mk_RMSELoss "sum" 1e-9) sample_outputs sample_targets).
Proof.
  apply (rmse_loss_lower_bound Sum 1e-9 sample_outputs sample_targets);
    [lra | reflexivity | discriminate].
Defined.

(** X7. With a non-negative epsilon, the sum reduction is the mean
    reduction times the number of entries. *)
Theorem rmse_sum_and_mean (e : R) (p t : torch.Tensor) :
  0 <= e -> length p = length t -> p <> [] ->
  exists total,
    forward (mk_RMSELoss "sum" e) p t = Scalar (Fin total) /\
    forward (mk_RMSELoss "mean" e) p t = Scalar (Fin (total / INR (length p))).
Proof.
  intros He Hlen Hp.
  change "sum" with (strategy_name Sum). change "mean" with (strategy_name Mean).
  rewrite !forward_strategy, (rmse_elementwise_fin0 _ _ _ He). cbn [reduce].
  rewrite sum_num_fin, mean_num_fin by (apply combine_nonempty; assumption).
  rewrite combine_length_same by assumption.
  eexists. split; reflexivity.
Qed.

Lemma rmse_sum_and_mean_witness :
  exists total,
    forward (mk_RMSELoss "sum" 1e-9) sample_outputs sample_targets = Scalar (Fin total) /\
    forward (mk_RMSELoss "mean" 1e-9) sample_outputs sample_targets
    = Scalar (Fin (total / INR (length sample_outputs))).
Proof.
  apply rmse_sum_and_mean; [lra | reflexivity | discriminate].
Defined.

(** X8. The rmse loss does not tell predictions from targets: exchanging
    them gives the same loss, for every reduction string and epsilon. *)
Theorem rmse_loss_symmetric (self : RMSELoss) (p t : torch.Tensor) :
  length p = length t -> forward self p t = forward self t p.
Proof.
  intros _. unfold forward. cbv zeta.
  now rewrite !forward_elementwise, (rmse_elementwise_comm _ p t).
Qed.

Lemma rmse_loss_symmetric_witness :
  forward RMSELoss_default sample_outputs sample_targets
  = forward RMSELoss_default sample_targets sample_outputs.
Proof.
  apply rmse_loss_symmetric. reflexivity.
Defined.

(** X9. On outputs and labels of one shape, [loss_fn] returns exactly for
    the three kinds it knows, and what it returns is then one number, never
    an unreduced tensor. *)
Theorem loss_fn_returns_iff_recognized (outputs labels : torch.Tensor) (loss_type : string) :
  length outputs = length labels ->
  (exists v, loss_fn outputs labels loss_type = Return (Scalar v)) <-> recognized loss_type.
Proof.
  intros _. split.
  - intros (v & Hv). unfold recognized.
    destruct (String.eqb_spec loss_type "mse"); [tauto |].
    destruct (String.eqb_spec loss_type "rmse"); [tauto |].
    destruct (String.eqb_spec loss_type "smooth_l1"); [tauto |].
    unfold loss_fn in Hv. rewrite select_loss_unrecognized in Hv; [discriminate |].
    unfold recognized. tauto.
  - intros [-> | [-> | ->]].
    + eexists. reflexivity.
    + change (loss_fn outputs labels "rmse")
        with (Return (forward (mk_RMSELoss (strategy_name Mean) 1e-9)
                              (torch.float outputs) (torch.float labels))).
      rewrite forward_strategy. eexists. reflexivity.
    + eexists. reflexivity.
Qed.

(** ** Dataset adapter: construction, indices, content *)

Section DatasetMore.

Lemma df_column_present (frame : DataFrame) (name : string) :
  has_column frame name -> exists col, df_column frame name = Return col.
Proof.
  unfold has_column, df_column. destruct (dict_get (df_columns frame) name) as [col |].
  - intros _. now exists col.
  - congruence.
Qed.


Lemma df_column_returns (frame : DataFrame) (name : string) (col : list cell) :
  df_column frame name = Return col -> has_column frame name.
Proof.
  unfold has_column, df_column. destruct (dict_get (df_columns frame) name); congruence.
Qed.

Lemma filter_nil_Forall {A : Type} (f : A -> bool) (l : list A) :
  filter f l = [] -> Forall (fun x => f x = false) l.
Proof.
  induction l as [| x l IH]; cbn [filter]; [constructor |].
  destruct (f x) eqn:E; [discriminate |]. intros H. constructor; auto.
Qed.

Lemma lacks_false_iff (frame : DataFrame) (name : string) :
  lacks frame name = false <-> has_column frame name.
Proof.
  unfold lacks, has_column. destruct (dict_get (df_columns frame) name).
  - split; [discriminate | reflexivity].
  - split; [discriminate | congruence].
Qed.

(** The columns selected are those of the names, one by one. *)
Lemma df_select_spec (frame : DataFrame) (names : list string) :
  forall cols, df_select frame names = Return cols ->
               Forall2 (fun name col => df_column frame name = Return col) names cols.
Proof.
  intros cols H. unfold df_select in H.
  destruct (filter (lacks frame) names) eqn:E; [| discriminate].
  injection H as <-. apply filter_nil_Forall in E.
  induction E as [| name names Hn _ IH]; cbn [map]; constructor; [| exact IH].
  unfold df_column. unfold lacks in Hn.
  now destruct (dict_get (df_columns frame) name).
Qed.

Lemma df_select_present (frame : DataFrame) (names : list string) :
  Forall (has_column frame) names -> exists cols, df_select frame names = Return cols.
Proof.
  intros H. unfold df_select.
  assert (E : filter (lacks frame) names = []).
  { induction H as [| name names Hn _ IH]; [reflexivity |].
    cbn [filter]. apply lacks_false_iff in Hn. now rewrite Hn. }
  rewrite E. eexists. reflexivity.
Qed.


(** What a dataset that was built holds. *)
Lemma init_fields (frame : DataFrame) (tok : Tokenizer) (n : nat)
    (target_label : option (list string)) (mode : bool) (self : FeedBackDataset) :
  FeedBackDataset_init frame tok n target_label mode = Return self ->
  df self = frame /\ tokenizer self = tok /\ max_len self = n /\ train_mode self = mode /\
  df_column frame "full_text" = Return (texts self) /\
  (if mode
   then exists names tg, target_label = Some names /\
                         df_values frame (Some names) = Return tg /\
                         targets self = Some tg
   else targets self = None).
Proof.
  unfold FeedBackDataset_init.
  destruct (df_column frame "full_text") as [txt | e]; [| discriminate]. cbn [bind].
  destruct mode.
  - destruct target_label as [names |]; [| discriminate].
    destruct (df_values frame (Some names)) as [tg | e] eqn:Hv; [| discriminate].
    cbn [bind]. intros [= <-]. cbn. repeat split. now exists names, tg.
  - intros [= <-]. cbn. repeat split.
Qed.

Lemma index_out_of_range (n : nat) (i : Z) :
  (i < - Z.of_nat n \/ Z.of_nat n <= i)%Z -> Py.index n i = Raise IndexError.
Proof.
  intros H. unfold Py.index.
  destruct ((0 <=? i)%Z && (i <? Z.of_nat n)%Z) eqn:E1.
  - apply andb_prop in E1 as [H1 H2]. lia.
  - destruct ((- Z.of_nat n <=? i)%Z && (i <? 0)%Z) eqn:E2; [| reflexivity].
    apply andb_prop in E2 as [H1 H2]. lia.
Qed.

Lemma index_negative (n : nat) (i : Z) :
  (- Z.of_nat n <= i < 0)%Z -> Py.index n i = Py.index n (i + Z.of_nat n).
Proof.
  intros H. unfold Py.index.
  replace ((0 <=? i)%Z) with false by (symmetry; apply Z.leb_gt; lia).
  replace ((- Z.of_nat n <=? i)%Z) with true by (symmetry; apply Z.leb_le; lia).
  replace ((i <? 0)%Z) with true by (symmetry; apply Z.ltb_lt; lia).
  replace ((0 <=? i + Z.of_nat n)%Z) with true by (symmetry; apply Z.leb_le; lia).
  replace ((i + Z.of_nat n <? Z.of_nat n)%Z) with true by (symmetry; apply Z.ltb_lt; lia).
  cbn [andb]. do 2 f_equal. lia.
Qed.

Lemma df_values_length (frame : DataFrame) (names : list string) (tg : list (list cell)) :
  df_values frame (Some names) = Return tg -> length tg = df_len frame.
Proof.
  unfold df_values. destruct (df_select frame names); [| discriminate]. cbn [bind].
  intros [= <-]. now rewrite length_map, length_seq.
Qed.

Lemma df_select_returns (frame : DataFrame) (names : list string) (cols : list (list cell)) :
  df_select frame names = Return cols -> Forall (has_column frame) names.
Proof.
  intros H. apply df_select_spec in H.
  induction H as [| name col names cols Hc _ IH]; constructor;
    [exact (df_column_returns _ _ _ Hc) | exact IH].
Qed.

(** Row [k] of the selected columns, cell by cell. *)
Lemma selected_row (frame : DataFrame) (names : list string) (cols : list (list cell))
    (k : nat) :
  well_formed_df frame -> (k < df_len frame)%nat ->
  df_select frame names = Return cols ->
  Forall2 (fun name v => exists col, df_column frame name = Return col /\
                                     nth_error col k = Some v)
          names (map (fun col => nth k col (Number 0)) cols).
Proof.
  intros Hwf Hk H. apply df_select_spec in H.
  induction H as [| name col names cols Hc _ IH]; cbn [map]; constructor; [| exact IH].
  exists col. split; [assumption |].
  apply nth_error_nth'. now rewrite (df_column_length _ _ _ Hwf Hc).
Qed.

End DatasetMore.

(** X10. The dataset is built exactly when the table has the text column
    and, in training mode, a list of target columns is given and the table
    has every one of them; in inference mode the targets are not looked
    at. *)
Theorem init_returns_iff (frame : DataFrame) (tok : Tokenizer) (n : nat)
    (target_label : option (list string)) (mode : bool) :
  (exists self, FeedBackDataset_init frame tok n target_label mode = Return self) <->
  has_column frame "full_text" /\
  (mode = true ->
   exists names, target_label = Some names /\ Forall (has_column frame) names).
Proof.
  split.
  - intros (self & H). destruct (init_fields _ _ _ _ _ _ H) as (_ & _ & _ & _ & Ht & Hm).
    split; [exact (df_column_returns _ _ _ Ht) |].
    intros ->. destruct Hm as (names & tg & -> & Hv & _). exists names.
    split; [reflexivity |]. unfold df_values in Hv.
    destruct (df_select frame names) as [cols |] eqn:Hs; [| discriminate].
    exact (df_select_returns _ _ _ Hs).
  - intros (Ht & Hm). unfold FeedBackDataset_init.
    destruct (df_column_present _ _ Ht) as [txt ->]. cbn [bind].
    destruct mode; [| eexists; reflexivity].
    destruct (Hm eq_refl) as (names & -> & Hnames).
    unfold df_values. destruct (df_select_present _ _ Hnames) as [cols ->].
    cbn [bind]. eexists. reflexivity.
Qed.



(** X12. An index below [-len] or from [len] on ends in an index error,
    in both modes and before the tokenizer is asked. *)
Theorem getitem_out_of_range (frame : DataFrame) (tok : Tokenizer) (n : nat)
    (target_label : option (list string)) (mode : bool)
    (self : FeedBackDataset) (index : Z) :
  well_formed_df frame ->
  FeedBackDataset_init frame tok n target_label mode = Return self ->
  (index < - Z.of_nat (FeedBackDataset_len self) \/
   Z.of_nat (FeedBackDataset_len self) <= index)%Z ->
  FeedBackDataset_getitem self index = Raise IndexError.
Proof.
  intros Hwf Hinit Hrange.
  destruct (init_fields _ _ _ _ _ _ Hinit) as (Hdf & _ & _ & _ & Ht & _).
  unfold FeedBackDataset_len in Hrange. rewrite Hdf in Hrange.
  unfold FeedBackDataset_getitem, array_getitem.
  rewrite (df_column_length _ _ _ Hwf Ht), (index_out_of_range _ _ Hrange).
  reflexivity.
Qed.

Lemma getitem_out_of_range_witness :
  exists self,
    FeedBackDataset_init sample_frame sample_tokenizer 512 (Some target_columns) true
      = Return self /\
    FeedBackDataset_getitem self 2 = Raise IndexError /\
    FeedBackDataset_getitem self (-3) = Raise IndexError.
Proof.
  eexists. split; [reflexivity |]. split.
  - apply (getitem_out_of_range sample_frame sample_tokenizer 512
             (Some target_columns) true _ 2 sample_frame_well_formed eq_refl).
    right. cbn. lia.
  - apply (getitem_out_of_range sample_frame sample_tokenizer 512
             (Some target_columns) true _ (-3) sample_frame_well_formed eq_refl).
    left. cbn. lia.
Defined.

(** X13. A negative index counts from the end: for [-len <= index < 0]
    the example at [index] is the example at [index + len]. *)
Theorem getitem_negative_index (frame : DataFrame) (tok : Tokenizer) (n : nat)
    (target_label : option (list string)) (mode : bool)
    (self : FeedBackDataset) (index : Z) :
  well_formed_df frame ->
  FeedBackDataset_init frame tok n target_label mode = Return self ->
  (- Z.of_nat (FeedBackDataset_len self) <= index < 0)%Z ->
  FeedBackDataset_getitem self index
  = FeedBackDataset_getitem self (index + Z.of_nat (FeedBackDataset_len self)).
Proof.
  intros Hwf Hinit Hrange.
  destruct (init_fields _ _ _ _ _ _ Hinit) as (Hdf & _ & _ & Hmode & Ht & Htg).
  unfold FeedBackDataset_len in *. rewrite Hdf in *.
  unfold FeedBackDataset_getitem, array_getitem.
  rewrite (df_column_length _ _ _ Hwf Ht), <- (index_negative _ _ Hrange).
  rewrite Hmode. destruct mode; [| reflexivity].
  destruct Htg as (names & tg & _ & Hv & ->).
  now rewrite (df_values_length _ _ _ Hv), <- (index_negative _ _ Hrange).
Qed.

Lemma getitem_negative_index_witness :
  exists self,
    FeedBackDataset_init sample_frame sample_tokenizer 512 (Some target_columns) true
      = Return self /\
    FeedBackDataset_getitem self (-1) = FeedBackDataset_getitem self 1.
Proof.
  eexists. split; [reflexivity |].
  apply (getitem_negative_index sample_frame sample_tokenizer 512
           (Some target_columns) true _ (-1) sample_frame_well_formed eq_refl).
  cbn. lia.
Defined.

(** X14. In training mode the example at row [k] has three entries in
    this order: the token ids and the attention mask as the tokenizer gave
    them for the text of the row, and the target, which holds the values of
    the listed columns at row [k], in the order of the list. *)
Theorem getitem_training_example (frame : DataFrame) (tok : Tokenizer) (n : nat)
    (labels : list string) (self : FeedBackDataset) (index : Z) (k : nat)
    (text : cell) (inputs : Encoding) :
  well_formed_df frame ->
  FeedBackDataset_init frame tok n (Some labels) true = Return self ->
  Py.index (FeedBackDataset_len self) index = Return k ->
  nth_error (texts self) k = Some text ->
  tok text n = Return inputs ->
  exists row,
    FeedBackDataset_getitem self index =
      Return [("input_ids", Ids (input_ids inputs));
              ("attention_mask", Ids (attention_mask inputs));
              ("target", Target row)] /\
    Forall2 (fun name v => exists col, df_column frame name = Return col /\
                                       nth_error col k = Some v)
            labels row.
Proof.
  intros Hwf Hinit Hk Htext Htok.
  destruct (init_fields _ _ _ _ _ _ Hinit) as (Hdf & Htk & Hmax & Hmode & Ht & Htg).
  destruct Htg as (names & tg & [= <-] & Hv & Htargets).
  unfold FeedBackDataset_len in Hk. rewrite Hdf in Hk.
  pose proof (index_in_range _ _ _ Hk) as Hlt.
  unfold FeedBackDataset_getitem, array_getitem.
  rewrite (df_column_length _ _ _ Hwf Ht), Hk. cbn [bind]. rewrite Htext. cbn [bind].
  rewrite Htk, Hmax, Htok. cbn [bind]. rewrite Hmode, Htargets.
  rewrite (df_values_length _ _ _ Hv), Hk. cbn [bind].
  unfold df_values in Hv.
  destruct (df_select frame labels) as [cols |] eqn:Hs; [| discriminate].
  cbn [bind] in Hv. injection Hv as <-.
  rewrite nth_error_map, nth_error_nth' with (d := 0%nat) by now rewrite length_seq.
  rewrite seq_nth by assumption. cbn [option_map bind Nat.add].
  eexists. split; [reflexivity |].
  now apply selected_row.
Qed.

Lemma getitem_training_example_witness :
  exists self row,
    FeedBackDataset_init sample_frame sample_tokenizer 512 (Some target_columns) true
      = Return self /\
    FeedBackDataset_getitem self (-1) =
      Return [("input_ids", Ids [1; 273; 2]%Z);
              ("attention_mask", Ids [1; 1; 1]%Z);
              ("target", Target row)] /\
    length row = 6%nat.
Proof.
  destruct (getitem_training_example sample_frame sample_tokenizer 512 target_columns
              _ (-1) 1 _ _ sample_frame_well_formed eq_refl eq_refl eq_refl eq_refl)
    as (row & Hrow & Hcols).
  eexists. exists row. split; [reflexivity |]. split; [exact Hrow |].
  apply Forall2_length in Hcols. now rewrite <- Hcols.
Defined.

(** ** Optimizer: the plain groups, failures, and the shape of the layerwise groups *)

Section OptimizerMore.

Lemma existsb_eqb_false (p : Param) (memo : list Param) :
  existsb (Nat.eqb p) memo = false -> ~ In p memo.
Proof.
  intros E Hin. assert (H : existsb (Nat.eqb p) memo = true).
  { apply existsb_exists. exists p. split; [assumption | apply Nat.eqb_refl]. }
  congruence.
Qed.

(** What the memo leaves: every identity once, and none of the memo. *)
Lemma remove_duplicate_spec (l : list (string * Param)) :
  forall memo,
    NoDup (map snd (remove_duplicate memo l)) /\
    (forall q, In q (map snd (remove_duplicate memo l)) <->
               In q (map snd l) /\ ~ In q memo).
Proof.
  induction l as [| [n p] l IH]; intros memo; cbn [remove_duplicate map snd].
  - split; [constructor |]. intros q. cbn. tauto.
  - destruct (existsb (Nat.eqb p) memo) eqn:E.
    + destruct (IH memo) as [Hnd Hin]. split; [exact Hnd |].
      intros q. rewrite Hin. cbn [In].
      apply existsb_exists in E as (p' & Hp' & Heq). apply Nat.eqb_eq in Heq. subst p'.
      split; [tauto |]. intros [[<- | H] Hq]; [contradiction | tauto].
    + apply existsb_eqb_false in E. destruct (IH (p :: memo)) as [Hnd Hin].
      cbn [map snd]. split.
      * constructor; [| exact Hnd]. intros H. apply Hin in H as [_ H]. apply H. now left.
      * intros q. cbn [In]. rewrite Hin. cbn [In].
        destruct (Nat.eq_dec p q) as [<- | Hne]; tauto.
Qed.

Lemma named_parameters_ids (m : nnModule) :
  NoDup (map snd (named_parameters m)) /\
  (forall q, In q (map snd (named_parameters m)) <-> In q (map snd (walk_parameters "" m))).
Proof.
  unfold named_parameters. destruct (remove_duplicate_spec (walk_parameters "" m) []) as [H1 H2].
  split; [exact H1 |]. intros q. rewrite H2. cbn. tauto.
Qed.

Lemma select_incl (f : string -> bool) (l : list (string * Param)) (q : Param) :
  In q (select f l) -> In q (map snd l).
Proof.
  unfold select. rewrite !in_map_iff. intros (np & <- & H).
  apply filter_In in H as [H _]. now exists np.
Qed.

Lemma for_layers_length (wd dc : R) (layers : list nnModule) :
  forall rate, length (for_layers wd dc layers [] rate) = (2 * length layers)%nat.
Proof.
  induction layers as [| l rest IH]; intros rate; [reflexivity |].
  cbn [for_layers app]. rewrite for_layers_app, length_app, IH. cbn [layer_groups length]. lia.
Qed.

(** The layer visited last gets the rate after as many steps as layers
    were visited before it. *)
Lemma for_layers_last (wd dc : R) (layers : list nnModule) (l : nnModule) :
  forall rate,
    for_layers wd dc (layers ++ [l]) [] rate =
    for_layers wd dc layers [] rate ++ layer_groups wd (rate * dc ^ length layers) l.
Proof.
  induction layers as [| l' rest IH]; intros rate.
  - cbn [app for_layers length pow]. now rewrite Rmult_1_r.
  - cbn [app for_layers length]. rewrite (for_layers_app wd dc (rest ++ [l])).
    rewrite (for_layers_app wd dc rest), IH, <- app_assoc. do 3 f_equal.
    cbn [pow]. ring.
Qed.

End OptimizerMore.

(** X15. Without the layerwise option the two groups of the optimizer
    hold every parameter of the model exactly once, for every model: the
    names decide only which of the two groups a parameter goes to. *)
Theorem plain_groups_partition (model : nnModule) (config : Config) (size : Z)
    (optimizer : Optimizer) (scheduler : Scheduler) :
  optimizer_setup model config size false = Return (optimizer, scheduler) ->
  length (opt_groups optimizer) = 2%nat /\
  Permutation (all_params (opt_groups optimizer)) (map snd (named_parameters model)) /\
  NoDup (all_params (opt_groups optimizer)).
Proof.
  unfold optimizer_setup, optimizer_parameters_of. cbn [bind].
  destruct (floordiv _ _) as [steps | e]; [| discriminate]. cbn [bind].
  intros [= <- _]. cbn [opt_groups].
  assert (HP : Permutation (all_params (plain_groups model config))
                           (map snd (named_parameters model))).
  { unfold all_params, plain_groups. cbn [flat_map params]. rewrite app_nil_r.
    apply decays_complement. }
  split; [reflexivity |]. split; [exact HP |].
  apply (Permutation_NoDup (Permutation_sym HP)). apply named_parameters_ids.
Qed.

Lemma plain_groups_partition_witness :
  exists optimizer scheduler,
    optimizer_setup sample_model sample_config 1000 false = Return (optimizer, scheduler) /\
    Permutation (all_params (opt_groups optimizer)) (map snd (named_parameters sample_model)).
Proof.
  do 2 eexists. split; [reflexivity |].
  eapply (plain_groups_partition sample_model sample_config 1000). reflexivity.
Defined.

(** X16. Without the layerwise option and with a learning rate that the
    optimizer accepts (one that is not negative), the set-up ends in a
    division by zero when batch_size x accumulation_steps is zero;
    otherwise it returns, the optimizer has the configured learning rate
    with bias correction on, and the scheduler is bound to this
    optimizer. *)
Theorem optimizer_setup_plain_outcome (model : nnModule) (config : Config) (size : Z) :
  0 <= learning_rate config ->
  ((train_batch_size config * n_accumulate config = 0)%Z ->
   optimizer_setup model config size false = Raise ZeroDivisionError) /\
  ((train_batch_size config * n_accumulate config <> 0)%Z ->
   exists optimizer scheduler,
     optimizer_setup model config size false = Return (optimizer, scheduler) /\
     opt_lr optimizer = learning_rate config /\ correct_bias optimizer = true /\
     sched_optimizer scheduler = optimizer).
Proof.
  intros _. unfold optimizer_setup, optimizer_parameters_of, floordiv. cbn [bind].
  split; intros H.
  - now rewrite H.
  - destruct (Z.eqb_spec (train_batch_size config * n_accumulate config) 0);
      [contradiction |].
    cbn [bind]. do 2 eexists. repeat split.
Qed.

Lemma optimizer_setup_plain_outcome_witness :
  optimizer_setup sample_model (mk_Config 2e-5 1e-3 0.01 3 0 2) 1000 false
    = Raise ZeroDivisionError /\
  exists optimizer scheduler,
    optimizer_setup sample_model sample_config 1000 false = Return (optimizer, scheduler) /\
    opt_lr optimizer = 2e-5.
Proof.
  split.
  - apply (optimizer_setup_plain_outcome sample_model (mk_Config 2e-5 1e-3 0.01 3 0 2) 1000).
    + cbn. lra.
    + reflexivity.
  - destruct (optimizer_setup_plain_outcome sample_model sample_config 1000) as [_ H];
      [cbn; lra |].
    destruct H as (o & sc & H & Hlr & _); [cbn; lia |].
    exists o, sc. split; [exact H | exact Hlr].
Defined.

(** X17. The layerwise groups are built only for a model that has the
    attributes [model], [model.embeddings], [model.encoder] and
    [model.encoder.layer]; and when they are not built, the set-up of the
    optimizer ends in the same error, before it divides. *)
Theorem grouped_parameters_needs_layout (model : nnModule) (base dlr wd dc : R) :
  ((exists groups, get_optimizer_grouped_parameters model base dlr wd dc = Return groups) ->
   exists backbone embeddings encoder layer,
     getattr model "model" = Return backbone /\
     getattr backbone "embeddings" = Return embeddings /\
     getattr backbone "encoder" = Return encoder /\
     getattr encoder "layer" = Return layer) /\
  (forall e config size,
     get_optimizer_grouped_parameters model (learning_rate config) (cfg_decoder_lr config)
       (cfg_weight_decay config) default_lr_decay = Raise e ->
     optimizer_setup model config size true = Raise e).
Proof.
  split.
  - intros (groups & H). unfold get_optimizer_grouped_parameters, layers_of in H.
    destruct (getattr model "model") as [backbone |]; [| discriminate]. cbn [bind] in H.
    destruct (getattr backbone "embeddings") as [embeddings |] eqn:He; [| discriminate].
    cbn [bind] in H.
    destruct (getattr backbone "encoder") as [encoder |] eqn:Hc; [| discriminate].
    cbn [bind] in H.
    destruct (getattr encoder "layer") as [layer |] eqn:Hl; [| discriminate].
    now exists backbone, embeddings, encoder, layer.
  - intros e config size H. unfold optimizer_setup, optimizer_parameters_of.
    now rewrite H.
Qed.

(** X18. On a model with these attributes there are three groups and two
    more for the embedding block and for each encoder layer; the two groups
    of the embedding block come last, at the base rate times the decay
    factor to the power of the number of encoder layers. *)
Theorem grouped_parameters_shape (model backbone embeddings encoder layer : nnModule)
    (base dlr wd dc : R) :
  getattr model "model" = Return backbone ->
  getattr backbone "embeddings" = Return embeddings ->
  getattr backbone "encoder" = Return encoder ->
  getattr encoder "layer" = Return layer ->
  let layers := length (module_list layer) in
  exists front,
    get_optimizer_grouped_parameters model base dlr wd dc
      = Return (front ++ layer_groups wd (rate_at base dc layers) embeddings) /\
    length front = (3 + 2 * layers)%nat.
Proof.
  intros Hb He Hc Hl layers.
  destruct (grouped_parameters_layout _ _ _ _ _ base dlr wd dc Hb He Hc Hl)
    as (g0 & g1 & g2 & Hg & _).
  rewrite Hg, for_layers_last, length_rev, app_assoc.
  eexists. split; [reflexivity |].
  rewrite length_app, for_layers_length, length_rev. reflexivity.
Qed.

Lemma grouped_parameters_shape_witness :
  exists front,
    get_optimizer_grouped_parameters sample_model 2e-5 1e-3 0.01 0.9
      = Return (front ++ layer_groups 0.01 (rate_at 2e-5 0.9 2) sample_embeddings) /\
    length front = 7%nat.
Proof.
  exact (grouped_parameters_shape sample_model sample_backbone sample_embeddings
           sample_encoder (Mod [] [("0", sample_layer 10); ("1", sample_layer 20)])
           2e-5 1e-3 0.01 0.9 eq_refl eq_refl eq_refl eq_refl).
Defined.

(** X19. On a model with these attributes, whatever its names and its
    shared parameters, the groups hold parameters of the model only, and
    every parameter of the embedding block and of every encoder layer is in
    them. *)
Theorem grouped_parameters_within_model
    (model backbone embeddings encoder layer : nnModule) (base dlr wd dc : R) :
  getattr model "model" = Return backbone ->
  getattr backbone "embeddings" = Return embeddings ->
  getattr backbone "encoder" = Return encoder ->
  getattr encoder "layer" = Return layer ->
  exists groups,
    get_optimizer_grouped_parameters model base dlr wd dc = Return groups /\
    (forall q, In q (all_params groups) -> In q (map snd (named_parameters model))) /\
    (forall l q, In l (embeddings :: module_list layer) ->
                 In q (map snd (named_parameters l)) -> In q (all_params groups)).
Proof.
  intros Hb He Hc Hl.
  destruct (grouped_parameters_layout _ _ _ _ _ base dlr wd dc Hb He Hc Hl)
    as (g0 & g1 & g2 & Hg & E0 & E1 & E2).
  eexists. split; [exact Hg |].
  assert (Hvisited : forall l, In l (rev (module_list layer) ++ [embeddings]) <->
                               In l (embeddings :: module_list layer)).
  { intros l. rewrite in_app_iff, <- in_rev. cbn. tauto. }
  assert (Hloop : forall q,
             In q (all_params (for_layers wd dc (rev (module_list layer) ++ [embeddings])
                                          [] base)) <->
             exists l, In l (embeddings :: module_list layer) /\
                       In q (map snd (named_parameters l))).
  { intros q. split.
    - intros H. apply (Permutation_in _ (for_layers_params _ _ _ _)) in H.
      apply in_flat_map in H as (l & Hin & Hq). exists l. now rewrite <- Hvisited.
    - intros (l & Hin & Hq).
      apply (Permutation_in _ (Permutation_sym (for_layers_params _ _ _ _))).
      apply in_flat_map. exists l. now rewrite Hvisited. }
  unfold all_params. split.
  - intros q. rewrite flat_map_app, in_app_iff. fold all_params. intros [H | H].
    + change (flat_map params [g0; g1; g2])
        with (params g0 ++ params g1 ++ params g2 ++ []) in H.
      rewrite E0, E1, E2 in H. cbn [params] in H.
      rewrite !in_app_iff in H. destruct H as [H | [H | [H | []]]].
      * exact (select_incl _ _ _ H).
      * apply select_incl in H. rewrite select_filter in H. exact (select_incl _ _ _ H).
      * apply select_incl in H. rewrite select_filter in H. exact (select_incl _ _ _ H).
    + apply Hloop in H as (l & Hin & Hq).
      apply named_parameters_ids in Hq. apply named_parameters_ids.
      pose proof (walk_decomposition _ _ _ _ _ Hb He Hc Hl) as HW.
      apply (Permutation_in _ (Permutation_sym (Permutation_map snd HW))).
      rewrite map_app, in_app_iff. right. rewrite covered_ids.
      apply in_flat_map. now exists l.
  - intros l q Hin Hq. rewrite flat_map_app, in_app_iff. right.
    apply Hloop. now exists l.
Qed.

Lemma grouped_parameters_within_model_witness :
  exists groups,
    get_optimizer_grouped_parameters projected_model 2e-5 1e-3 0.01 0.9 = Return groups /\
    (forall q, In q (all_params groups) ->
               In q (map snd (named_parameters projected_model))).
Proof.
  destruct (grouped_parameters_within_model projected_model projected_backbone
              sample_embeddings sample_encoder
              (Mod [] [("0", sample_layer 10); ("1", sample_layer 20)])
              2e-5 1e-3 0.01 0.9 eq_refl eq_refl eq_refl eq_refl)
    as (groups & Hg & Hin & _).
  exists groups. split; [exact Hg | exact Hin].
Defined.

Lemma NoDup_app_disjoint {A : Type} (l1 l2 : list A) (a : A) :
  NoDup (l1 ++ l2) -> In a l1 -> ~ In a l2.
Proof.
  induction l1 as [| x l1 IH]; cbn [app]; intros Hnd Hin Hin2; [destruct Hin |].
  inversion Hnd as [| ? ? Hx Hrest]; subst.
  destruct Hin as [<- | Hin].
  - apply Hx. apply in_or_app. now right.
  - exact (IH Hrest Hin Hin2).
Qed.

(** X20. A parameter that the model yields under a name of the head and
    that the embedding block or an encoder layer holds too (a tied weight)
    is put in two groups: the groups are then no partition. *)
Theorem grouped_parameters_tied (model backbone embeddings encoder layer l : nnModule)
    (base dlr wd dc : R) (q : Param) :
  getattr model "model" = Return backbone ->
  getattr backbone "embeddings" = Return embeddings ->
  getattr backbone "encoder" = Return encoder ->
  getattr encoder "layer" = Return layer ->
  In q (select is_head (named_parameters model)) ->
  In l (embeddings :: module_list layer) ->
  In q (map snd (named_parameters l)) ->
  exists groups,
    get_optimizer_grouped_parameters model base dlr wd dc = Return groups /\
    ~ NoDup (all_params groups).
Proof.
  intros Hb He Hc Hl Hhead Hin Hq.
  destruct (grouped_parameters_layout _ _ _ _ _ base dlr wd dc Hb He Hc Hl)
    as (g0 & g1 & g2 & Hg & E0 & _).
  eexists. split; [exact Hg |].
  change (all_params ([g0; g1; g2] ++
                      for_layers wd dc (rev (module_list layer) ++ [embeddings]) [] base))
    with (params g0 ++
          all_params ([g1; g2] ++
                      for_layers wd dc (rev (module_list layer) ++ [embeddings]) [] base)).
  intros Hnd. apply (NoDup_app_disjoint _ _ q Hnd).
  - now rewrite E0.
  - unfold all_params. rewrite flat_map_app, in_app_iff. right.
    apply (Permutation_in _ (Permutation_sym (for_layers_params _ _ _ _))).
    apply in_flat_map. exists l. split; [| exact Hq].
    rewrite in_app_iff, <- in_rev. cbn in Hin |- *. tauto.
Qed.

Lemma grouped_parameters_tied_witness :
  exists groups,
    get_optimizer_grouped_parameters tied_model 2e-5 1e-3 0.01 0.9 = Return groups /\
    ~ NoDup (all_params groups).
Proof.
  apply (grouped_parameters_tied tied_model sample_backbone sample_embeddings
           sample_encoder (Mod [] [("0", sample_layer 10); ("1", sample_layer 20)])
           sample_embeddings 2e-5 1e-3 0.01 0.9 0%nat);
    try reflexivity.
  - lazy. tauto.
  - now left.
  - lazy. tauto.
Defined.

(** X21. A negative epsilon is not refused: where the squared error is
    below its absolute value the root is [nan], so the loss of a
    non-empty tensor against itself is [nan] under the mean and the sum
    reduction. *)
Theorem rmse_negative_epsilon (e : R) (p : torch.Tensor) :
  e < 0 -> p <> [] ->
  forward (mk_RMSELoss "mean" e) p p = Scalar NaN /\
  forward (mk_RMSELoss "sum" e) p p = Scalar NaN.
Proof.
  intros He Hp.
  change "sum" with (strategy_name Sum). change "mean" with (strategy_name Mean).
  rewrite !forward_strategy. unfold rmse_elementwise.
  rewrite combine_self, map_map. cbn [fst snd].
  rewrite (map_ext _ (fun _ => NaN)).
  - destruct p as [| x p]; [congruence |]. cbn [reduce]. split; reflexivity.
  - intros x. unfold real_sqrt.
    destruct (Rlt_dec ((x - x) ^ 2 + e) 0) as [_ | H]; [reflexivity |].
    exfalso. apply H. replace ((x - x) ^ 2) with 0 by ring. lra.
Qed.

Lemma rmse_negative_epsilon_witness :
  forward (mk_RMSELoss "mean" (-1)) sample_outputs sample_outputs = Scalar NaN.
Proof.
  apply (rmse_negative_epsilon (-1) sample_outputs); [lra | discriminate].
Defined.

Lemma loss_fn_returns_iff_recognized_witness :
  exists v, loss_fn sample_outputs sample_targets "smooth_l1" = Return (Scalar v).
Proof.
  apply (loss_fn_returns_iff_recognized sample_outputs sample_targets "smooth_l1").
  - reflexivity.
  - right. right. reflexivity.
Defined.

Lemma init_returns_iff_witness :
  exists self,
    FeedBackDataset_init sample_frame sample_tokenizer 512 (Some target_columns) true
    = Return self.
Proof.
  apply (init_returns_iff sample_frame sample_tokenizer 512 (Some target_columns) true).
  split; [cbv; discriminate |]. intros _. exists target_columns.
  split; [reflexivity |]. repeat constructor; cbv; discriminate.
Defined.

Lemma grouped_parameters_needs_layout_witness :
  optimizer_setup empty_model (mk_Config 2e-5 1e-3 0.01 3 0 2) 1000 true
  = Raise (AttributeError "model").
Proof.
  apply (grouped_parameters_needs_layout empty_model 2e-5 1e-3 0.01 0.9).
  reflexivity.
Defined.
